(** * kaonic-ota: the update agent of kaonic-commd, and the package tool

    A shallow embedding of [ota/kaonic-ota.py] (the agent: start-up
    reconciliation, signature check, upload transaction, version query) and
    of the digest routine of [scripts/create-ota.py], with the properties of
    the update-and-rollback engine proved over it.

    The functions of the agent are written as blocks of atomic calls on a
    state made of the device (its files, its directories, and a journal of
    every supervisor call and file change) and of the temporary directory of
    the request. The libraries the agent calls (hashlib, cryptography,
    zipfile, systemctl through subprocess) are interfaces; Flask hands the
    request over as a value. Calls to the logger have no effect on the
    state and are left out. *)

From Stdlib Require Import ZArith NArith Lia Ascii String.
From Equations.Prop Require Import Equations Logic.
From stdpp Require Import base option list strings gmap.

Local Open Scope string_scope.
Local Open Scope list_scope.

(** ** Bytes and text *)

Abbreviation bytes := (list Byte.byte).

(** A text file is read one character per byte; this is exact for the ASCII
    files the package tool writes (a hex digest, a version label). Errors
    of the operating system other than a missing file (unreadable or
    undecodable file, full disk) are outside the model. *)
Definition decode (b : bytes) : string := string_of_list_byte b.

(** [str.isspace] on the characters below 256. *)
Definition isspace (c : ascii) : bool :=
  let n := N_of_ascii c in
  ((9 <=? n) && (n <=? 13) || (28 <=? n) && (n <=? 32) || (n =? 133) || (n =? 160))%N.

Fixpoint lstrip (s : string) : string :=
  match s with
  | String c s' => if isspace c then lstrip s' else s
  | EmptyString => EmptyString
  end.

Fixpoint rstrip (s : string) : string :=
  match s with
  | String c s' =>
      match rstrip s' with
      | EmptyString => if isspace c then EmptyString else String c EmptyString
      | t => String c t
      end
  | EmptyString => EmptyString
  end.

(** [str.strip()] *)
Definition strip (s : string) : string := rstrip (lstrip s).

(** ** hashlib

    The interface of a [hashlib] hash object, as the two programs use it:
    [hashlib.sha256()], [h.update(chunk)], [h.hexdigest()]. *)
Class Hashlib := {
  hasher : Type;
  sha256 : hasher;
  update : hasher -> bytes -> hasher;
  hexdigest : hasher -> string
}.

(** hashlib's contract: feeding nothing changes nothing, and feeding two
    chunks one after the other is feeding their concatenation. *)
Record hashlib_contract `{Hashlib} : Prop := {
  update_empty : forall h : hasher, update h [] = h;
  update_concat : forall (h : hasher) (a b : bytes),
    update (update h a) b = update h (a ++ b)
}.

(** The digest of a whole byte sequence fed in one call. *)
Definition sha256_hex `{Hashlib} (B : bytes) : string := hexdigest (update sha256 B).

Section Digest.
Context {HL : Hashlib}.

(** [f.read(size)] on a file opened in binary mode, the remaining content
    standing for the file object: the chunk and the rest. *)
Definition read (size : N) (f : bytes) : bytes * bytes :=
  (take (N.to_nat size) f, drop (N.to_nat size) f).

(** [for chunk in iter(lambda: f.read(size), b""): h.update(chunk)] and
    [while chunk := f.read(size): h.update(chunk)]: both leave the loop at
    the first empty chunk. *)
Equations? read_chunks (size : N) (h : hasher) (f : bytes) : hasher
  by wf (length f) lt :=
  read_chunks size h f with inspect (read size f) := {
    | exist _ ([], _) _ := h
    | exist _ (chunk, rest) E := read_chunks size (update h chunk) rest }.
Proof.
  unfold read in E. inversion E as [[E1 E2]].
  rewrite length_drop.
  destruct f as [|x f]; [by destruct (N.to_nat size)|].
  destruct (N.to_nat size); [done|]. simpl. lia.
Qed.

(** The body of [sha256sum] of kaonic-ota.py, on the content of the opened
    file. *)
Definition sha256sum_of (f : bytes) : string :=
  let h := sha256 in
  hexdigest (read_chunks 4096 h f).

(** The body of [get_file_hash] of create-ota.py, called with its default
    [algo='sha256']. *)
Definition get_file_hash_of (f : bytes) : string :=
  let hash_func := sha256 in
  hexdigest (read_chunks 8192 hash_func f).

(** [get_file_hash(filepath)] on the files of the build host. *)
Definition get_file_hash (host : gmap string bytes) (filepath : string) : option string :=
  f ← host !! filepath;
  Some (get_file_hash_of f).

End Digest.

(** ** The device

    Files carry their bytes and their mode bits ([shutil.copy2] copies
    both). The layout is fixed: [METADATA_PATH] is a directory when it
    exists, the other paths are regular files when they exist. *)
Record file := File { content : bytes; st_mode : N }.

(** A [pathlib.Path], as its parts. *)
Abbreviation Path := (list string).

Definition joinpath (p : Path) (name : string) : Path := p ++ [name].
Infix "//" := joinpath (at level 40, left associativity).

Definition BINARY_PATH : Path := ["/"; "usr"; "bin"].
Definition APP_PATH : Path := BINARY_PATH // "kaonic-commd".

Definition METADATA_PATH : Path := ["/"; "etc"; "kaonic"].
Definition VERSION_PATH : Path := METADATA_PATH // "kaonic-commd.version".
Definition HASH_PATH : Path := METADATA_PATH // "kaonic-commd.sha256".
Definition BACKUP_PATH : Path := METADATA_PATH // "kaonic-commd.bak".
Definition VERIFY_KEY_PATH : Path := METADATA_PATH // "beechat-ota.pub.pem".

(** What happens on the device, in order: the calls to the supervisor and
    to the clock, and every change to a file or directory of the device. *)
Inductive event :=
| SystemctlStop
| SystemctlStart
| SystemctlIsActive (returncode : Z)
| Sleep (secs : nat)
| Wrote (p : Path)
| Unlinked (p : Path)
| Chmod (p : Path) (mode : N)
| Mkdir (p : Path).

Record device := Device {
  files : gmap Path file;
  dirs : gset Path;
  journal : list event
}.

Definition with_files (f : gmap Path file -> gmap Path file) (d : device) : device :=
  Device (f (files d)) (dirs d) (journal d).

Definition logged (e : event) (d : device) : device :=
  Device (files d) (dirs d) (journal d ++ [e]).

(** A file of the device written, removed, given new mode bits. *)
Definition write (q : Path) (x : file) (d : device) : device :=
  logged (Wrote q) (with_files <[q := x]> d).

Definition erase (q : Path) (d : device) : device :=
  logged (Unlinked q) (with_files (delete q) d).

Definition set_mode (q : Path) (x : file) (mode : N) (d : device) : device :=
  logged (Chmod q mode) (with_files <[q := File (content x) mode]> d).

(** The state a request runs in: the device, shared, and the request's own
    temporary directory, keyed by the names under it. *)
Record world := World { dev : device; tmp : gmap string file }.

(** A path of the device or a path under the temporary directory. *)
Inductive path := Abs (p : Path) | InTmp (name : string).

Definition lookup_file (w : world) (p : path) : option file :=
  match p with
  | Abs q => files (dev w) !! q
  | InTmp name => tmp w !! name
  end.

Definition store_file (p : path) (x : file) (w : world) : world :=
  match p with
  | Abs q => World (write q x (dev w)) (tmp w)
  | InTmp name => World (dev w) (<[name := x]> (tmp w))
  end.

Definition remove_file (p : path) (w : world) : world :=
  match p with
  | Abs q => World (erase q (dev w)) (tmp w)
  | InTmp name => World (dev w) (delete name (tmp w))
  end.

Definition change_mode (p : path) (x : file) (mode : N) (w : world) : world :=
  match p with
  | Abs q => World (set_mode q x mode (dev w)) (tmp w)
  | InTmp name => World (dev w) (<[name := File (content x) mode]> (tmp w))
  end.

Definition record_call (e : event) (w : world) : world :=
  World (logged e (dev w)) (tmp w).

(** ** Control flow

    Python exceptions, the ones the calls of the agent can raise. All are
    subclasses of [Exception]. *)
Inductive exn :=
| InvalidSignature
| UnsupportedAlgorithm
| ValueError
| TypeError
| KeyError
| FileNotFoundError
| FileExistsError
| BadZipFile.

(** How a block of statements ends: it falls through to the next statement
    with a value, executes [return], or raises. *)
Inductive outcome (R A : Type) :=
| Next (a : A)
| Returned (r : R)
| Raised (e : exn).
Arguments Next {R A} a.
Arguments Returned {R A} r.
Arguments Raised {R A} e.

(** A block: finished, or one atomic call on the world followed by the rest
    of the block. [R] is the type the enclosing function returns. *)
Inductive prog (R A : Type) : Type :=
| Fin (o : outcome R A)
| Act {B : Type} (act : world -> B * world) (k : B -> prog R A).
Arguments Fin {R A} o.
Arguments Act {R A B} act k.

Fixpoint bind {R A B} (m : prog R A) (f : A -> prog R B) : prog R B :=
  match m with
  | Fin (Next a) => f a
  | Fin (Returned r) => Fin (Returned r)
  | Fin (Raised e) => Fin (Raised e)
  | Act act k => Act act (fun b => bind (k b) f)
  end.

#[global] Instance prog_ret {R} : MRet (prog R) := fun _ a => Fin (Next a).
#[global] Instance prog_bind {R} : MBind (prog R) := fun _ _ f m => bind m f.
#[global] Instance prog_fmap {R} : FMap (prog R) :=
  fun _ _ f m => bind m (fun a => Fin (Next (f a))).

Definition return_ {R A} (r : R) : prog R A := Fin (Returned r).
Definition raise {R A} (e : exn) : prog R A := Fin (Raised e).

(** [if c: m] *)
Definition when {R} (c : bool) (m : prog R unit) : prog R unit :=
  if c then m else mret tt.

(** [not a], [a and b], [a or b]: the right operand is evaluated only when
    the left one does not decide. *)
Definition not_ {R} (a : prog R bool) : prog R bool := negb <$> a.
Definition and_ {R} (a b : prog R bool) : prog R bool :=
  x ← a; if x : bool then b else mret false.
Definition or_ {R} (a b : prog R bool) : prog R bool :=
  x ← a; if x : bool then mret true else b.

(** [try: m / except Exception as e: h e]; a [return] inside [m] leaves the
    function and is not caught. *)
Fixpoint try_except {R A} (m : prog R A) (h : exn -> prog R A) : prog R A :=
  match m with
  | Fin (Raised e) => h e
  | Fin o => Fin o
  | Act act k => Act act (fun b => try_except (k b) h)
  end.

(** [with ... : m], the clean-up running however [m] ends. *)
Fixpoint finally {R A} (m : prog R A) (cleanup : world -> world) : prog R A :=
  match m with
  | Fin o => Act (fun w => (tt, cleanup w)) (fun _ => Fin o)
  | Act act k => Act act (fun b => finally (k b) cleanup)
  end.

(** A call of a function whose every path ends in [return] or raises. *)
Fixpoint call_function {R R' : Type} (body : prog R Empty_set) : prog R' R :=
  match body with
  | Fin (Next x) => match x with end
  | Fin (Returned r) => Fin (Next r)
  | Fin (Raised e) => Fin (Raised e)
  | Act act k => Act act (fun b => call_function (k b))
  end.

(** A call of a procedure: falling off its end and a bare [return] both
    give [None]. *)
Fixpoint call_procedure {R' : Type} (body : prog unit unit) : prog R' unit :=
  match body with
  | Fin (Next _) => Fin (Next tt)
  | Fin (Returned _) => Fin (Next tt)
  | Fin (Raised e) => Fin (Raised e)
  | Act act k => Act act (fun b => call_procedure (k b))
  end.

(** Running a block to its end, one thread alone. *)
Fixpoint run {R A} (m : prog R A) (w : world) : outcome R A * world :=
  match m with
  | Fin o => (o, w)
  | Act act k => let (b, w') := act w in run (k b) w'
  end.

Definition run_on (d : device) {R A} (m : prog R A) : outcome R A * device :=
  let (o, w) := run m (World d ∅) in (o, dev w).

(** Loops: [for x in l: body x], and [for _ in range(n): body] whose body
    may [break]. *)
Fixpoint for_each {R A} (l : list A) (body : A -> prog R unit) : prog R unit :=
  match l with
  | [] => mret tt
  | x :: l' => body x;; for_each l' body
  end.

Inductive loop_control := Continue | Break.

Fixpoint for_range {R} (n : nat) (body : prog R loop_control) : prog R unit :=
  match n with
  | O => mret tt
  | S n' => c ← body; match c with Continue => for_range n' body | Break => mret tt end
  end.

(** ** Calls on the file system *)

Definition present {A} (o : option A) : bool :=
  match o with Some _ => true | None => false end.

(** One atomic call that reads the world. *)
Definition ask {R A} (f : world -> A) : prog R A :=
  Act (fun w => (f w, w)) (fun a => Fin (Next a)).

(** One atomic call that changes the world, or raises where [f] has no
    result. *)
Definition perform {R} (f : world -> exn + world) : prog R unit :=
  Act (fun w => match f w with inl e => (Some e, w) | inr w' => (None, w') end)
      (fun r => match r with Some e => raise e | None => mret tt end).

(** [p.exists()] for a path of a regular file. *)
Definition exists_ {R} (p : path) : prog R bool :=
  ask (fun w => present (lookup_file w p)).

(** [p.exists()] for the path of a directory. *)
Definition exists_dir {R} (q : Path) : prog R bool :=
  ask (fun w => bool_decide (q ∈ dirs (dev w))).

(** The path itself and the directories above it. *)
Fixpoint with_parents (q : Path) : list Path :=
  match q with
  | [] => []
  | part :: q' => [part] :: map (cons part) (with_parents q')
  end.

(** [q.mkdir(parents=True)] *)
Definition mkdir_parents {R} (q : Path) : prog R unit :=
  perform (fun w =>
    if bool_decide (q ∈ dirs (dev w)) then inl FileExistsError
    else inr (World (Device (files (dev w))
                            (dirs (dev w) ∪ list_to_set (with_parents q))
                            (journal (dev w) ++ [Mkdir q]))
                    (tmp w))).

(** [with p.open("rb") as f], [p.read_bytes()] *)
Definition read_bytes {R} (p : path) : prog R bytes :=
  o ← ask (fun w => lookup_file w p);
  match o with
  | Some f => mret (content f)
  | None => raise FileNotFoundError
  end.

(** [p.read_text()] *)
Definition read_text {R} (p : path) : prog R string :=
  b ← read_bytes p; mret (decode b).

(** [shutil.copy2(src, dst)]: content and mode. *)
Definition copy2 {R} (src dst : path) : prog R unit :=
  perform (fun w =>
    match lookup_file w src with
    | Some f => inr (store_file dst f w)
    | None => inl FileNotFoundError
    end).

(** [p.unlink()] *)
Definition unlink {R} (p : path) : prog R unit :=
  perform (fun w =>
    match lookup_file w p with
    | Some _ => inr (remove_file p w)
    | None => inl FileNotFoundError
    end).

(** [p.stat().st_mode] *)
Definition stat_st_mode {R} (p : path) : prog R N :=
  o ← ask (fun w => lookup_file w p);
  match o with
  | Some f => mret (st_mode f)
  | None => raise FileNotFoundError
  end.

(** [os.chmod(p, mode)] *)
Definition chmod {R} (p : path) (mode : N) : prog R unit :=
  perform (fun w =>
    match lookup_file w p with
    | Some f => inr (change_mode p f mode w)
    | None => inl FileNotFoundError
    end).

Definition S_IXUSR : N := 64.
Definition S_IXGRP : N := 8.
Definition S_IXOTH : N := 1.

(** The mode of a file the agent creates anew (0o644). *)
Definition created_mode : N := 420.

(** [time.sleep(secs)] *)
Definition sleep {R} (secs : nat) : prog R unit :=
  perform (fun w => inr (record_call (Sleep secs) w)).

(** [with tempfile.TemporaryDirectory() as tmp_dir_str: body]: a fresh,
    empty directory, removed with all it holds when the block is left. *)
Definition with_temporary_directory {R A} (body : prog R A) : prog R A :=
  perform (fun w => inr (World (dev w) ∅));;
  finally body (fun w => World (dev w) ∅).

(** ** The collaborators of the agent *)

(** The supervisor: the return code of
    [systemctl is-active --quiet kaonic-commd.service], which may depend on
    all that happened on the device so far and on what is installed. *)
Class Systemd := {
  systemctl_is_active : device -> Z
}.

(** The [cryptography] package. [verify] returns nothing when the signature
    is good and raises otherwise. *)
Inductive public_key (rsa ed25519 other : Type) :=
| RSAPublicKey (k : rsa)
| Ed25519PublicKey (k : ed25519)
| OtherPublicKey (k : other).
Arguments RSAPublicKey {rsa ed25519 other} k.
Arguments Ed25519PublicKey {rsa ed25519 other} k.
Arguments OtherPublicKey {rsa ed25519 other} k.

Inductive padding := PKCS1v15.
Inductive hashes := SHA256.

Class Cryptography := {
  rsa_key : Type;
  ed25519_key : Type;
  other_key : Type;
  load_pem_public_key : bytes -> exn + public_key rsa_key ed25519_key other_key;
  rsa_verify : rsa_key -> bytes -> bytes -> padding -> hashes -> option exn;
  ed25519_verify : ed25519_key -> bytes -> bytes -> option exn
}.

(** The [zipfile] module: the members of an archive as [extractall] writes
    them, or the exception it raises. *)
Class Zipfile := {
  extractall : bytes -> exn + list (string * file)
}.

(** The upload of a Flask request. *)
Record FileStorage := { content_type : string; stream : bytes }.
Record request := { request_files : gmap string FileStorage }.

(** [jsonify({"detail": detail}), status_code] *)
Record response := jsonify { detail : string; status_code : N }.

(** [jsonify({"version": version, "hash": hash})] *)
Record version_reply := { version : option string; hash : option string }.

Section Agent.
Context {HL : Hashlib} {CR : Cryptography} {ZF : Zipfile} {SD : Systemd}.

(** kaonic-ota.py, lines 170-175 *)
Definition sha256sum {R} (file_path : path) : prog R string :=
  f ← read_bytes file_path;
  mret (sha256sum_of f).

(** lines 177-184; [check=False]: the outcome of the command is ignored *)
Definition stop_kaonic_commd {R} : prog R unit :=
  perform (fun w => inr (record_call SystemctlStop w)).

(** lines 186-192 *)
Definition is_kaonic_running {R} : prog R bool :=
  returncode ← Act (fun w => let rc := systemctl_is_active (dev w) in
                            (rc, record_call (SystemctlIsActive rc) w))
                   (fun rc => Fin (Next rc));
  mret (returncode =? 0)%Z.

(** lines 194-201 *)
Definition launch_kaonic_commd {R} : prog R unit :=
  perform (fun w => inr (record_call SystemctlStart w)).

(** lines 203-208 *)
Definition backup_current {R} : prog R unit :=
  backup_exists ← exists_ (Abs BACKUP_PATH);
  when backup_exists (unlink (Abs BACKUP_PATH));;
  app_exists ← exists_ (Abs APP_PATH);
  when app_exists (copy2 (Abs APP_PATH) (Abs BACKUP_PATH)).

(** lines 210-216 *)
Definition restore_backup {R} : prog R unit :=
  backup_exists ← exists_ (Abs BACKUP_PATH);
  if backup_exists : bool then copy2 (Abs BACKUP_PATH) (Abs APP_PATH)
  else mret tt.

(** lines 32-50 *)
Definition validate_app_file : prog unit unit :=
  missing ← not_ (exists_dir METADATA_PATH);
  when missing (
    mkdir_parents METADATA_PATH;;
    return_ tt);;
  nothing ← and_ (not_ (exists_ (Abs APP_PATH))) (not_ (exists_ (Abs BACKUP_PATH)));
  when nothing (return_ tt);;
  hash_exists ← exists_ (Abs HASH_PATH);
  expected_hash ← (if hash_exists : bool then strip <$> read_text (Abs HASH_PATH) else mret "");
  app_exists ← exists_ (Abs APP_PATH);
  actual_hash ← (if app_exists : bool then sha256sum (Abs APP_PATH) else mret "");
  untrusted ← or_ (or_ (not_ (exists_ (Abs APP_PATH))) (not_ (exists_ (Abs HASH_PATH))))
                  (mret (negb (expected_hash =? actual_hash)));
  when untrusted (
    stop_kaonic_commd;;
    restore_backup;;
    launch_kaonic_commd).

(** A call into a library that returns [a] or raises. *)
Definition lift {R A} (r : exn + A) : prog R A :=
  match r with inl e => raise e | inr a => mret a end.

(** A call into a library that returns nothing or raises. *)
Definition check {R} (r : option exn) : prog R unit :=
  match r with Some e => raise e | None => mret tt end.

(** lines 52-77 *)
Definition validate_signature {R} (file_path sig_path key_path : path) : prog R bool :=
  call_function (
    try_except (
      key_pem ← read_bytes key_path;
      public_key ← lift (load_pem_public_key key_pem);
      file_data ← read_bytes file_path;
      signature ← read_bytes sig_path;
      match public_key with
      | RSAPublicKey k => check (rsa_verify k signature file_data PKCS1v15 SHA256)
      | Ed25519PublicKey k => check (ed25519_verify k signature file_data)
      | OtherPublicKey _ => return_ false
      end;;
      return_ true)
    (fun e =>
      match e with
      | InvalidSignature => return_ false
      | _ => return_ false
      end)).

(** [file.save(zip_path)] *)
Definition save {R} (file : FileStorage) (dst : path) : prog R unit :=
  perform (fun w => inr (store_file dst (File (stream file) created_mode) w)).

(** [with zipfile.ZipFile(zip_path, "r") as zip_ref: zip_ref.extractall(temp_dir)] *)
Definition extract_into_tmp {R} (zip_path : path) : prog R unit :=
  archive ← read_bytes zip_path;
  members ← lift (extractall archive);
  for_each members (fun m => perform (fun w => inr (store_file (InTmp m.1) m.2 w))).

Definition required_files : list string :=
  ["kaonic-commd"; "kaonic-commd.sha256"; "kaonic-commd.version"; "kaonic-commd.sig"].

(** lines 142-148: the loop that watches the service after its start. *)
Definition watch_service {R} : prog R unit :=
  for_range 10 (
    running ← is_kaonic_running;
    if running : bool then sleep 1;; mret Continue
    else mret Break).

(** lines 79-159 *)
Definition upload_ota (request : request) : prog response Empty_set :=
  when (negb (present (request_files request !! "file"))) (
    return_ (jsonify "No file uploaded" 400));;
  file ← lift (from_option inr (inl KeyError) (request_files request !! "file"));
  when (negb (content_type file =? "application/x-zip-compressed")) (
    return_ (jsonify "Only ZIP files accepted" 400));;

  key_missing ← not_ (exists_ (Abs VERIFY_KEY_PATH));
  when key_missing (
    return_ (jsonify "OTA certificate is not present" 500));;

  with_temporary_directory (
    let zip_path := InTmp "upload.zip" in
    let app_path := InTmp "kaonic-commd" in
    let hash_path := InTmp "kaonic-commd.sha256" in
    let sig_path := InTmp "kaonic-commd.sig" in
    let version_path := InTmp "kaonic-commd.version" in

    save file zip_path;;

    try_except (extract_into_tmp zip_path)
      (fun e =>
        match e with
        | BadZipFile => return_ (jsonify "Invalid ZIP file" 400)
        | _ => raise e
        end);;

    for_each required_files (fun req_file =>
      missing ← not_ (exists_ (InTmp req_file));
      when missing (
        return_ (jsonify ("Missing " ++ req_file ++ " in OTA package") 400)));;

    expected_hash ← strip <$> read_text hash_path;
    actual_hash ← sha256sum app_path;

    when (negb (expected_hash =? actual_hash)) (
      return_ (jsonify "SHA256 hash mismatch" 400));;

    verified ← validate_signature app_path sig_path (Abs VERIFY_KEY_PATH);
    when (negb verified) (
      return_ (jsonify "SHA256 hash mismatch" 400));;

    stop_kaonic_commd;;
    backup_current;;

    copy2 app_path (Abs APP_PATH);;

    current_permissions ← stat_st_mode (Abs APP_PATH);
    chmod (Abs APP_PATH)
      (N.lor (N.lor (N.lor current_permissions S_IXUSR) S_IXGRP) S_IXOTH);;

    launch_kaonic_commd;;

    watch_service;;

    running ← is_kaonic_running;
    if running : bool then
      copy2 hash_path (Abs HASH_PATH);;
      copy2 version_path (Abs VERSION_PATH);;
      return_ (jsonify "Update successful" 200)
    else
      restore_backup;;
      launch_kaonic_commd;;
      return_ (jsonify "Failed to start new app, rollback done" 500)).

(** lines 161-168 *)
Definition get_version : prog version_reply Empty_set :=
  missing ← or_ (not_ (exists_ (Abs VERSION_PATH))) (not_ (exists_ (Abs HASH_PATH)));
  when missing (
    return_ {| version := None; hash := None |});;
  version ← strip <$> read_text (Abs VERSION_PATH);
  hash_val ← strip <$> read_text (Abs HASH_PATH);
  return_ {| version := Some version; hash := Some hash_val |}.

End Agent.

(** ** The blocks in closed form

    What follows restates, as plain functions, what the blocks above do
    when run; the lemmas of the second part prove each of them equal to
    running the block. *)

Definition and_then {R A B} (r : outcome R A * world)
    (f : A -> world -> outcome R B * world) : outcome R B * world :=
  match r with
  | (Next a, w) => f a w
  | (Returned r, w) => (Returned r, w)
  | (Raised e, w) => (Raised e, w)
  end.

(** The four artifacts of a candidate package, as extracted. *)
Record package := Package {
  binary : file;
  digest_file : file;
  version_file : file;
  signature_file : file
}.

Definition SHA256_hash_mismatch : response := jsonify "SHA256 hash mismatch" 400.
Definition Update_successful : response := jsonify "Update successful" 200.
Definition Rollback_done : response :=
  jsonify "Failed to start new app, rollback done" 500.

(** An event that is no change to the file at [q]. *)
Definition spares (q : Path) (e : event) : Prop :=
  e <> Wrote q /\ e <> Unlinked q /\ forall mode, e <> Chmod q mode.

(** A stretch of the journal in which neither recorded file is changed. *)
Definition leaves_record (js : list event) : Prop :=
  Forall (fun e => spares HASH_PATH e /\ spares VERSION_PATH e) js.

(** The device [d'] is the device [d] some events [js] later, the journal
    being kept faithfully: it has only grown, by [js]; a file has changed
    only if an event about its path is among them, the set of directories
    only if a [Mkdir] is. *)
Definition later (d d' : device) (js : list event) : Prop :=
  journal d' = journal d ++ js /\
  (forall q, Forall (spares q) js -> files d' !! q = files d !! q) /\
  (Forall (fun e => forall p, e <> Mkdir p) js -> dirs d' = dirs d).

(** A call that keeps the journal faithfully. *)
Definition journalled_act {B} (act : world -> B * world) : Prop :=
  forall w, exists js, later (dev w) (dev (act w).2) js.

(** ... and by every call of a block. *)
Fixpoint journalled {R A} (m : prog R A) : Prop :=
  match m with
  | Fin _ => True
  | Act act k => journalled_act act /\ forall b, journalled (k b)
  end.

(** [k] checks that reported active, each followed by its second of sleep. *)
Fixpoint active_turns (k : nat) : list event :=
  match k with
  | O => []
  | S k' => SystemctlIsActive 0 :: Sleep 1 :: active_turns k'
  end.

(** The device after [backup_current]. *)
Definition backed_up (d : device) : device :=
  let d1 := if present (files d !! BACKUP_PATH) then erase BACKUP_PATH d else d in
  match files d1 !! APP_PATH with
  | Some a => write BACKUP_PATH a d1
  | None => d1
  end.

(** The device after [restore_backup]. *)
Definition restored (d : device) : device :=
  match files d !! BACKUP_PATH with
  | Some b => write APP_PATH b d
  | None => d
  end.

(** A file with the three execute bits added. *)
Definition executable_mode (f : file) : N :=
  N.lor (N.lor (N.lor (st_mode f) S_IXUSR) S_IXGRP) S_IXOTH.

Definition executable (f : file) : file := File (content f) (executable_mode f).

Section ClosedForms.
Context {HL : Hashlib} {CR : Cryptography} {ZF : Zipfile} {SD : Systemd}.

(** The contract of the Signature Verifier, in the words of the
    specification: [verify(publicKey, message, signature) -> bool], true
    only for an RSA key whose PKCS#1 v1.5 / SHA-256 check passes or an
    Ed25519 key whose check passes, false for any other key and for
    anything that goes wrong. *)
Definition verify (publicKey message signature : bytes) : bool :=
  match load_pem_public_key publicKey with
  | inr (RSAPublicKey k) =>
      negb (present (rsa_verify k signature message PKCS1v15 SHA256))
  | inr (Ed25519PublicKey k) =>
      negb (present (ed25519_verify k signature message))
  | inr (OtherPublicKey _) => false
  | inl _ => false
  end.

(** What [validate_signature] answers on the three files it is given. *)
Definition signature_checks (w : world) (file_path sig_path key_path : path) : bool :=
  match lookup_file w key_path, lookup_file w file_path, lookup_file w sig_path with
  | Some key, Some data, Some sg => verify (content key) (content data) (content sg)
  | _, _, _ => false
  end.

(** The temporary directory once the upload is saved and extracted. *)
Definition unpack (upload : FileStorage) (members : list (string * file)) :
    gmap string file :=
  foldl (fun t m => <[m.1 := m.2]> t)
        (<["upload.zip" := File (stream upload) created_mode]> ∅) members.

(** The candidate package a request presents to the verification gate, if
    the request gets that far: a ZIP upload named [file], the trusted key
    on the device, an archive that extracts, all four artifacts in it. *)
Definition candidate (request : request) (d : device) : option package :=
  upload ← request_files request !! "file";
  if negb (content_type upload =? "application/x-zip-compressed") then None
  else if negb (present (files d !! VERIFY_KEY_PATH)) then None
  else match extractall (stream upload) with
       | inl _ => None
       | inr members =>
           let t := unpack upload members in
           b ← t !! "kaonic-commd";
           h ← t !! "kaonic-commd.sha256";
           v ← t !! "kaonic-commd.version";
           s ← t !! "kaonic-commd.sig";
           Some (Package b h v s)
       end.

(** The integrity check: the claimed digest against the computed one. *)
Definition integrity (c : package) : bool :=
  strip (decode (content (digest_file c))) =? sha256sum_of (content (binary c)).

(** The authenticity check, with the trusted key of the device. *)
Definition authenticity (d : device) (c : package) : bool :=
  match files d !! VERIFY_KEY_PATH with
  | Some key => verify (content key) (content (binary c)) (content (signature_file c))
  | None => false
  end.

(** The device after lines 131-140: service stopped, backup taken,
    candidate installed and made executable, service started. *)
Definition installed (c : package) (d : device) : device :=
  logged SystemctlStart
    (set_mode APP_PATH (binary c) (executable_mode (binary c))
       (write APP_PATH (binary c)
          (backed_up (logged SystemctlStop d)))).

(** The device after [n] turns of the loop of lines 143-148. *)
Fixpoint watched (n : nat) (d : device) : device :=
  match n with
  | O => d
  | S n' =>
      let rc := systemctl_is_active d in
      let d1 := logged (SystemctlIsActive rc) d in
      if (rc =? 0)%Z then watched n' (logged (Sleep 1) d1) else d1
  end.

(** The health probe of lines 142-150: the loop, then the check that
    decides, with the device it leaves. *)
Definition probe (d : device) : bool * device :=
  let d1 := watched 10 d in
  let rc := systemctl_is_active d1 in
  ((rc =? 0)%Z, logged (SystemctlIsActive rc) d1).

(** The probe in the words of the specification, section 4.3:
    [probeHealthy(maxAttempts, interval)] polls [isRunning] up to
    [maxAttempts] times with a fixed [interval] delay between checks,
    short-circuiting to true on the first success. *)
Fixpoint probeHealthy (maxAttempts interval : nat) (d : device) : bool * device :=
  match maxAttempts with
  | O => (false, d)
  | S n =>
      let rc := systemctl_is_active d in
      let d1 := logged (SystemctlIsActive rc) d in
      if (rc =? 0)%Z then (true, d1)
      else match n with
           | O => (false, d1)
           | S _ => probeHealthy n interval (logged (Sleep interval) d1)
           end
  end.

(** Lines 151-152 *)
Definition committed (c : package) (d : device) : device :=
  write VERSION_PATH (version_file c) (write HASH_PATH (digest_file c) d).

(** Lines 156-157 *)
Definition rolled_back (d : device) : device :=
  logged SystemctlStart (restored d).

(** The upload transaction from the verification gate on (lines 117-159). *)
Definition transaction (c : package) (d : device) : response * device :=
  if negb (integrity c) then (SHA256_hash_mismatch, d)
  else if negb (authenticity d c) then (SHA256_hash_mismatch, d)
  else
    let (healthy, d') := probe (installed c d) in
    if healthy then (Update_successful, committed c d')
    else (Rollback_done, rolled_back d').

(** The answer of the version query (lines 161-168). *)
Definition recorded (d : device) : version_reply :=
  match files d !! VERSION_PATH, files d !! HASH_PATH with
  | Some v, Some h =>
      {| version := Some (strip (decode (content v)));
         hash := Some (strip (decode (content h))) |}
  | _, _ => {| version := None; hash := None |}
  end.

(** The start-up reconciliation in closed form (lines 32-50). *)
Definition trusted (d : device) : bool :=
  match files d !! APP_PATH, files d !! HASH_PATH with
  | Some a, Some h => strip (decode (content h)) =? sha256sum_of (content a)
  | _, _ => false
  end.

Definition reconciled (d : device) : device :=
  if negb (bool_decide (METADATA_PATH ∈ dirs d)) then
    Device (files d) (dirs d ∪ list_to_set (with_parents METADATA_PATH))
           (journal d ++ [Mkdir METADATA_PATH])
  else if negb (present (files d !! APP_PATH)) && negb (present (files d !! BACKUP_PATH))
  then d
  else if trusted d then d
  else logged SystemctlStart (restored (logged SystemctlStop d)).

End ClosedForms.

(** ** Requests in flight together

    One atomic call of a block, and the blocks of two requests advanced in
    the order a schedule gives. Each request has its own temporary
    directory; the device is shared. *)
Definition step {R A} (m : prog R A) (w : world) : prog R A * world :=
  match m with
  | Fin o => (Fin o, w)
  | Act act k => let (b, w') := act w in (k b, w')
  end.

(** The block and the world after the first [n] calls. *)
Fixpoint steps {R A} (n : nat) (m : prog R A) (w : world) : prog R A * world :=
  match n with
  | O => (m, w)
  | S n' => let (m', w') := step m w in steps n' m' w'
  end.

Definition finished {R A} (m : prog R A) : bool :=
  match m with Fin _ => true | Act _ _ => false end.

(** A request being handled: what is left of [upload_ota], the temporary
    directory of the request, and the number of calls made so far. *)
Record thread := Thread {
  code : prog response Empty_set;
  scratch : gmap string file;
  taken : nat
}.

Definition step_thread (t : thread) (d : device) : thread * device :=
  if finished (code t) then (t, d)
  else
    let (m', w') := step (code t) (World d (scratch t)) in
    (Thread m' (tmp w') (S (taken t)), dev w').

Inductive turn := First | Second.

(** [n] turns in a row for the same request. *)
Fixpoint turns (who : turn) (n : nat) : list turn :=
  match n with
  | O => []
  | S n' => who :: turns who n'
  end.

Fixpoint interleave (schedule : list turn) (t1 t2 : thread) (d : device) :
    thread * thread * device :=
  match schedule with
  | [] => (t1, t2, d)
  | First :: s => let (t1', d') := step_thread t1 d in interleave s t1' t2 d'
  | Second :: s => let (t2', d') := step_thread t2 d in interleave s t1 t2' d'
  end.

(** The answer a finished request gave. *)
Definition answer (t : thread) : option response :=
  match code t with
  | Fin (Returned r) => Some r
  | _ => None
  end.

(** A request is in the pipeline from its first call until its answer. *)
Definition in_pipeline (t : thread) : bool :=
  (0 <? taken t)%nat && negb (finished (code t)).

(** Mutual exclusion as the specification words it (section 5): at no
    moment of the schedule are both requests in the pipeline. *)
Definition exclusive (schedule : list turn) (t1 t2 : thread) (d : device) : Prop :=
  forall n,
    let '(t1', t2', _) := interleave (take n schedule) t1 t2 d in
    in_pipeline t1' && in_pipeline t2' = false.

(** How [upload_ota] ends for a request that presents no candidate to the
    verification gate (lines 81-115). *)
Section Rejection.
Context {ZF : Zipfile}.

Definition rejection (request : request) (d : device) : outcome response Empty_set :=
  match request_files request !! "file" with
  | None => Returned (jsonify "No file uploaded" 400)
  | Some upload =>
      if negb (content_type upload =? "application/x-zip-compressed")
      then Returned (jsonify "Only ZIP files accepted" 400)
      else if negb (present (files d !! VERIFY_KEY_PATH))
      then Returned (jsonify "OTA certificate is not present" 500)
      else match extractall (stream upload) with
           | inl BadZipFile => Returned (jsonify "Invalid ZIP file" 400)
           | inl e => Raised e
           | inr members =>
               match find (fun name => negb (present (unpack upload members !! name)))
                          required_files with
               | Some name => Returned (jsonify ("Missing " ++ name ++ " in OTA package") 400)
               | None => Raised FileNotFoundError
               end
           end
  end.

End Rejection.

(** ** A laboratory

    Small stand-ins for the collaborators, so that the model runs on
    concrete devices and requests. None of them is the real algorithm: the
    digest is a one-byte checksum, a signature is the key followed by the
    message, an archive is a sequence of length-prefixed names and
    contents. *)
Module Lab.

Fixpoint bytes_eqb (a b : bytes) : bool :=
  match a, b with
  | [], [] => true
  | x :: a', y :: b' => Byte.eqb x y && bytes_eqb a' b'
  | _, _ => false
  end.

Definition checksum (b : bytes) : N :=
  fold_right (fun x acc => (Byte.to_N x + acc) mod 256)%N 0%N b.

Definition hex_digit (n : N) : ascii :=
  ascii_of_N (if (n <? 10)%N then 48 + n else 87 + n)%N.

Definition hex (n : N) : string :=
  String (hex_digit (n / 16)) (String (hex_digit (n mod 16)) EmptyString).

#[export] Instance hashlib : Hashlib := {|
  hasher := bytes;
  sha256 := [];
  update := fun h chunk => h ++ chunk;
  hexdigest := fun h => hex (checksum h)
|}.

(** A key file starts with the letter of its kind: R, E, or anything else
    for a kind the agent does not know; an empty file does not parse. *)
#[export] Instance cryptography : Cryptography := {|
  rsa_key := bytes;
  ed25519_key := bytes;
  other_key := bytes;
  load_pem_public_key := fun pem =>
    match pem with
    | [] => inl ValueError
    | kind :: k =>
        if Byte.eqb kind Byte.x52 then inr (RSAPublicKey k)
        else if Byte.eqb kind Byte.x45 then inr (Ed25519PublicKey k)
        else inr (OtherPublicKey k)
    end;
  rsa_verify := fun k signature data _ _ =>
    if bytes_eqb signature (k ++ data) then None else Some InvalidSignature;
  ed25519_verify := fun k signature data =>
    if bytes_eqb signature (data ++ k) then None else Some InvalidSignature
|}.

Definition text (s : string) : bytes := list_byte_of_string s.

Definition length_byte (n : nat) : Byte.byte :=
  default Byte.x00 (Byte.of_N (N.of_nat n)).

Definition newline : string := String (ascii_of_N 10) EmptyString.

(** An archive: for each member the length of its name, the name, the
    length of its content, the content. *)
Fixpoint pack (members : list (string * bytes)) : bytes :=
  match members with
  | [] => []
  | (name, data) :: rest =>
      length_byte (String.length name) :: text name
      ++ length_byte (length data) :: data ++ pack rest
  end.

Fixpoint unpack_members (fuel : nat) (b : bytes) : option (list (string * file)) :=
  match fuel, b with
  | _, [] => Some []
  | O, _ => None
  | S fuel', n :: b1 =>
      let n := N.to_nat (Byte.to_N n) in
      if negb (n <=? length b1)%nat then None else
      match drop n b1 with
      | [] => None
      | m :: b2 =>
          let m := N.to_nat (Byte.to_N m) in
          if negb (m <=? length b2)%nat then None else
          rest ← unpack_members fuel' (drop m b2);
          Some ((string_of_list_byte (take n b1), File (take m b2) created_mode) :: rest)
      end
  end.

#[export] Instance zipfile : Zipfile := {|
  extractall := fun archive =>
    match unpack_members (length archive) archive with
    | Some members => inr members
    | None => inl BadZipFile
    end
|}.

Fixpoint count_is_active (js : list event) : nat :=
  match js with
  | [] => O
  | SystemctlIsActive _ :: js' => S (count_is_active js')
  | _ :: js' => count_is_active js'
  end.

(** Supervisors: a service that always runs, one that never does, and one
    that reports active to the first question only. *)
Definition always_active : Systemd := {| systemctl_is_active := fun _ => 0%Z |}.
Definition never_active : Systemd := {| systemctl_is_active := fun _ => 3%Z |}.
Definition active_once : Systemd := {|
  systemctl_is_active := fun d =>
    match count_is_active (journal d) with O => 0%Z | S _ => 3%Z end
|}.

(** A release built the way create-ota.py builds it: the binary, its digest,
    a version label, a signature. *)
Definition release (label : string) (build key : bytes) : list (string * bytes) :=
  [("kaonic-commd", build);
   ("kaonic-commd.version", text label);
   ("kaonic-commd.sha256", text (get_file_hash_of build));
   ("kaonic-commd.sig", key ++ build)].

Definition upload_of (members : list (string * bytes)) : request :=
  {| request_files :=
       {[ "file" := {| content_type := "application/x-zip-compressed";
                       stream := pack members |} ]} |}.

Definition secret : bytes := text "k3y".
Definition build_1 : bytes := text "commd build one".
Definition build_2 : bytes := text "commd build two".
Definition build_3 : bytes := text "commd build three".

Definition good_upload : request := upload_of (release "v1.0-2-gabc" build_2 secret).
Definition other_upload : request := upload_of (release "v1.1-0-gdef" build_3 secret).

(** The digest file names another binary. *)
Definition tampered_upload : request :=
  upload_of [("kaonic-commd", build_2);
             ("kaonic-commd.version", text "v1.0");
             ("kaonic-commd.sha256", text (get_file_hash_of build_1));
             ("kaonic-commd.sig", secret ++ build_2)].

(** The signature was made with another key. *)
Definition forged_upload : request := upload_of (release "v1.0" build_2 (text "bad")).

Definition key_file : file := File (Byte.x52 :: secret) created_mode.
Definition G : file := File build_1 493.

(** A device with a committed binary [G], and a fresh one with the trusted
    key only. *)
Definition committed_device : device :=
  Device (<[APP_PATH := G]>
          (<[HASH_PATH := File (text (get_file_hash_of build_1 ++ newline)) created_mode]>
          (<[VERSION_PATH := File (text "v0.9") created_mode]>
          (<[VERIFY_KEY_PATH := key_file]> ∅))))
         {[ METADATA_PATH ]} [].

Definition fresh_device : device :=
  Device (<[VERIFY_KEY_PATH := key_file]> ∅) {[ METADATA_PATH ]} [].

(** A device that lost power in the middle of an install: the Active Binary
    is already the new build, the Recorded Digest still describes [G], which
    the Backup Binary holds. *)
Definition interrupted_device : device :=
  Device (<[APP_PATH := File build_2 493]>
          (<[BACKUP_PATH := G]> (files committed_device)))
         {[ METADATA_PATH ]} [].

(** The candidate of [good_upload], as extracted. *)
Definition good_candidate : package :=
  Package (File build_2 created_mode)
          (File (text (get_file_hash_of build_2)) created_mode)
          (File (text "v1.0-2-gabc") created_mode)
          (File (secret ++ build_2) created_mode).

(** Two uploads handled together: each in turn up to its install, then each
    to its end. *)
Definition overlapping : list turn :=
  turns First 25 ++ turns Second 25 ++ turns First 30 ++ turns Second 30.

End Lab.

Section Dispatch.
Context {HL : Hashlib} {CR : Cryptography} {ZF : Zipfile} {SD : Systemd}.

(** A request as the dispatcher hands it to [upload_ota]. *)
Definition received (request : request) : thread :=
  Thread (upload_ota request) ∅ 0.

(** The messages [upload_ota] can answer with. *)
Definition answers : list string :=
  ["No file uploaded"; "Only ZIP files accepted"; "OTA certificate is not present";
   "Invalid ZIP file"; "SHA256 hash mismatch"; "Update successful";
   "Failed to start new app, rollback done"]
  ++ map (fun name : string => ("Missing " ++ name ++ " in OTA package")%string)
         required_files.

End Dispatch.


(** ** The agent between its calls

    The commands given to the supervisor among the events of a journal, in
    order. *)
Fixpoint supervisor_commands (js : list event) : list event :=
  match js with
  | [] => []
  | SystemctlStop :: js' => SystemctlStop :: supervisor_commands js'
  | SystemctlStart :: js' => SystemctlStart :: supervisor_commands js'
  | _ :: js' => supervisor_commands js'
  end.

(** [P] holds of the device at every moment of the block [m] started in
    [w]: before its first call and after each of its calls. *)
Definition during {R A} (P : device -> Prop) (m : prog R A) (w : world) : Prop :=
  forall n, P (dev (steps n m w).2).

(** A byte that [str.isspace] takes for white space once decoded. *)
Definition space_byte (b : Byte.byte) : bool := isspace (ascii_of_byte b).

(** An event that changes no file but those at [paths], and no directory. *)
Definition within (paths : list Path) (e : event) : Prop :=
  match e with
  | Wrote p | Unlinked p | Chmod p _ => p ∈ paths
  | Mkdir _ => False
  | _ => True
  end.

(** A block that leaves the device alone: none of its calls changes it. *)
Fixpoint silent {R A} (m : prog R A) : Prop :=
  match m with
  | Fin _ => True
  | Act act k => (forall w, dev (act w).2 = dev w) /\ forall b, silent (k b)
  end.

(** A device in the middle of an update from the binary [G], recorded by the
    digest file [h], to the candidate [c]: either the Active Binary still
    has the content of [G] and the Recorded Digest is still [h]; or the
    Backup Binary holds [G] and the Active Binary has the content of the
    candidate, the Recorded Digest being still [h] or already the
    candidate's. *)
Definition mid_update (G h : file) (c : package) (d : device) : Prop :=
  METADATA_PATH ∈ dirs d /\
  ((exists a, files d !! APP_PATH = Some a /\ content a = content G /\
              files d !! HASH_PATH = Some h)
   \/
   (files d !! BACKUP_PATH = Some G /\
    exists a, files d !! APP_PATH = Some a /\ content a = content (binary c) /\
              (files d !! HASH_PATH = Some h \/
               files d !! HASH_PATH = Some (digest_file c)))).

(** ** The package tool

    [scripts/create-ota.py] runs on the build host and makes the archive the
    agent is sent: the binary, a version label, the digest of the binary
    and, when a signing key is given, a signature. The build host is a file
    system like the device's (its journal is not kept). As on the device the
    layout is fixed: the release directory is a directory when it exists,
    the archive and the other paths are regular files when they exist. The
    libraries the tool calls are interfaces; [argparse] hands the arguments
    over as a value and [git describe] its output as bytes. *)
Module CreateOta.

(** [cryptography], as the tool uses it: [load_pem_private_key(data,
    password=None)], [private_key.sign(data, padding, algorithm)],
    [private_key.public_key()] and [public_key.verify(signature, data,
    padding, algorithm)], each returning its result or the exception it
    raises. *)
Class Signing := {
  private_key_object : Type;
  public_key_object : Type;
  load_pem_private_key : bytes -> exn + private_key_object;
  private_sign : private_key_object -> bytes -> padding -> hashes -> exn + bytes;
  private_public_key : private_key_object -> public_key_object;
  public_verify : public_key_object -> bytes -> bytes -> padding -> hashes -> option exn
}.

(** The bytes [shutil.make_archive(base_name, 'zip', root_dir)] writes for
    the files below [root_dir], given by their paths relative to it. *)
Class Archiver := {
  zip_archive : gmap Path file -> bytes
}.

(** [bytes.decode("UTF-7")] *)
Class Codec := {
  decode_utf7 : bytes -> exn + string
}.

(** The arguments, as [parse_args()] returns them. *)
Record Namespace := {
  build_dir : string;
  output_dir : string;
  sign_key : string;
  keep : bool
}.

(** [pathlib.Path(s)]: the parts of [s] between slashes, empty parts and
    single dots left out, after the root when [s] starts with a slash. *)
Fixpoint split_on (sep : ascii) (s : string) : list string :=
  match s with
  | EmptyString => [EmptyString]
  | String c s' =>
      if Ascii.eqb c sep then EmptyString :: split_on sep s'
      else match split_on sep s' with
           | part :: parts => String c part :: parts
           | [] => [String c EmptyString]
           end
  end.

Definition Path_ (s : string) : Path :=
  (match s with
   | String "/"%char _ => ["/"]
   | _ => []
   end)
  ++ List.filter (fun part => negb (part =? "") && negb (part =? "."))
                 (split_on "/"%char s).

(** [os.path.dirname] and [os.path.basename] *)
Definition dirname (q : Path) : Path := removelast q.
Definition basename (q : Path) : string := List.last q "".

(** [f"{q}{suffix}"] as a path: the suffix goes to the last part. *)
Definition with_suffix (q : Path) (suffix : string) : Path :=
  match q with
  | [] => [suffix]
  | _ => dirname q ++ [(basename q ++ suffix)%string]
  end.

(** [str.encode()]: UTF-8, for the characters below 256. *)
Definition encode_char (c : ascii) : bytes :=
  let n := N_of_ascii c in
  if (n <? 128)%N then [byte_of_ascii c]
  else [byte_of_ascii (ascii_of_N (192 + n / 64));
        byte_of_ascii (ascii_of_N (128 + n mod 64))].

Definition encode (s : string) : bytes :=
  flat_map encode_char (list_ascii_of_string s).

(** [s.replace("\n", "")] *)
Fixpoint replace_newlines (s : string) : string :=
  match s with
  | EmptyString => EmptyString
  | String c s' =>
      if Ascii.eqb c "010"%char then replace_newlines s'
      else String c (replace_newlines s')
  end.

(** A file opened with mode ["wb"], written and closed: created with the
    default mode, or emptied first and keeping its mode; its directory has
    to exist. *)
Definition write_bytes_to (q : Path) (data : bytes) (w : world) : exn + world :=
  if negb (bool_decide (dirname q ∈ dirs (dev w))) then inl FileNotFoundError
  else inr (World (with_files
                     <[q := File data (from_option st_mode created_mode
                                                   (files (dev w) !! q))]>
                     (dev w))
                  (tmp w)).

(** [p.write_bytes(data)] *)
Definition write_bytes {R} (p : Path) (data : bytes) : prog R unit :=
  perform (write_bytes_to p data).

(** [os.remove(p)] *)
Definition os_remove {R} (p : Path) : prog R unit :=
  perform (fun w =>
    match files (dev w) !! p with
    | Some _ => inr (World (with_files (delete p) (dev w)) (tmp w))
    | None => inl FileNotFoundError
    end).

(** [shutil.rmtree(p)]: the directory and all that lies below it. *)
Definition rmtree {R} (p : Path) : prog R unit :=
  perform (fun w =>
    if bool_decide (p ∈ dirs (dev w)) then
      inr (World (Device (filter (fun kv => ¬ p `prefix_of` kv.1) (files (dev w)))
                         (filter (fun q => ¬ p `prefix_of` q) (dirs (dev w)))
                         (journal (dev w)))
                 (tmp w))
    else inl FileNotFoundError).

(** [os.mkdir(p)] *)
Definition os_mkdir {R} (p : Path) : prog R unit :=
  perform (fun w =>
    if bool_decide (p ∈ dirs (dev w)) || present (files (dev w) !! p)
    then inl FileExistsError
    else if negb (bool_decide (dirname p ∈ dirs (dev w))) then inl FileNotFoundError
    else inr (World (Device (files (dev w)) (dirs (dev w) ∪ {[ p ]}) (journal (dev w)))
                    (tmp w))).

(** [shutil.copy(src, dst)]: content and mode bits; into [dst] when it is a
    directory, under the name of [src]. *)
Definition shutil_copy {R} (src dst : Path) : prog R unit :=
  perform (fun w =>
    match files (dev w) !! src with
    | None => inl FileNotFoundError
    | Some f =>
        let dst := if bool_decide (dst ∈ dirs (dev w)) then dst // basename src else dst in
        if negb (bool_decide (dirname dst ∈ dirs (dev w))) then inl FileNotFoundError
        else inr (World (with_files <[dst := f]> (dev w)) (tmp w))
    end).

(** The path [q] relative to [root], when it lies at or below it. *)
Fixpoint relative_to (root q : Path) : option Path :=
  match root, q with
  | [], _ => Some q
  | r :: root', x :: q' => if decide (r = x) then relative_to root' q' else None
  | _ :: _, [] => None
  end.

(** The files below [root], by their paths relative to it. *)
Definition tree (root : Path) (fs : gmap Path file) : gmap Path file :=
  list_to_map
    (omap (fun kv : Path * file =>
             match relative_to root kv.1 with
             | Some (part :: rel) => Some (part :: rel, kv.2)
             | _ => None
             end)
          (map_to_list fs)).

Section Tool.
Context {HL : Hashlib} {SG : Signing} {AR : Archiver} {CD : Codec}.

(** [shutil.make_archive(base_name, 'zip', root_dir)] *)
Definition make_archive {R} (base_name root_dir : Path) : prog R unit :=
  perform (fun w =>
    if bool_decide (root_dir ∈ dirs (dev w)) then
      let archive := with_suffix base_name ".zip" in
      inr (World (with_files
                    <[archive := File (zip_archive (tree root_dir (files (dev w))))
                                      (from_option st_mode created_mode
                                                   (files (dev w) !! archive))]>
                    (dev w))
                 (tmp w))
    else inl FileNotFoundError).

(** create-ota.py, lines 51-56, called with its default [algo='sha256'] *)
Definition get_file_hash {R} (filepath : Path) : prog R string :=
  f ← read_bytes (Abs filepath);
  mret (get_file_hash_of f).

(** lines 58-61 *)
Definition save_to_file {R} (filepath : Path) (text : bytes) : prog R unit :=
  perform (write_bytes_to filepath text).

(** lines 63-79 *)
Definition sign_file {R} (key file sig_file : Path) : prog R unit :=
  file_data ← read_bytes (Abs file);
  key_pem ← read_bytes (Abs key);
  private_key ← lift (load_pem_private_key key_pem);
  signature ← lift (private_sign private_key file_data PKCS1v15 SHA256);
  write_bytes sig_file signature.

(** lines 81-96 *)
Definition verify_file {R} (key file_path sig_path : Path) : prog R unit :=
  file_data ← read_bytes (Abs file_path);
  signature ← read_bytes (Abs sig_path);
  key_pem ← read_bytes (Abs key);
  private_key ← lift (load_pem_private_key key_pem);
  let public_key := private_public_key private_key in
  check (public_verify public_key signature file_data PKCS1v15 SHA256).

(** lines 98-145. [git_describe] is the standard output of
    [git describe --tags --long]; [exit(0)] ends the tool with status 0,
    which is what [main] returns here. *)
Definition main (args : Namespace) (git_describe : bytes) : prog Z Empty_set :=
  let build_dir := Path_ (build_dir args) in
  let output_dir := Path_ (output_dir args) in

  version ← lift (decode_utf7 git_describe);
  let version := replace_newlines version in
  let version := if version =? "" then "v0.0.0" else version in

  let release_name := "kaonic-comm-ota" in
  let release_path := output_dir // release_name in
  let release_archive_path := with_suffix release_path ".zip" in

  archive_exists ← exists_ (Abs release_archive_path);
  when archive_exists (os_remove release_archive_path);;

  release_exists ← exists_dir release_path;
  when release_exists (rmtree release_path);;

  os_mkdir release_path;;

  shutil_copy (build_dir // "kaonic-commd") release_path;;

  save_to_file (release_path // "kaonic-commd.version") (encode version);;
  digest ← get_file_hash (release_path // "kaonic-commd");
  save_to_file (release_path // "kaonic-commd.sha256") (encode digest);;

  when (negb (sign_key args =? "")) (
    sign_file (Path_ (sign_key args)) (release_path // "kaonic-commd")
              (release_path // "kaonic-commd.sig");;
    verify_file (Path_ (sign_key args)) (release_path // "kaonic-commd")
                (release_path // "kaonic-commd.sig"));;

  make_archive release_path release_path;;

  when (negb (keep args)) (rmtree release_path);;

  return_ 0%Z.

(** *** What the tool makes, in closed form *)

(** The version label (lines 106-108). *)
Definition version_label (described : string) : string :=
  let version := replace_newlines described in
  if version =? "" then "v0.0.0" else version.

(** The files of the release directory when the archive is made, by their
    names: the binary [b] as built, the label, the digest of the binary,
    and the signature when there is one. *)
Definition release_tree (b : file) (label : string) (signature : option bytes) :
    gmap Path file :=
  <[ ["kaonic-commd"] := b ]>
  (<[ ["kaonic-commd.version"] := File (encode label) created_mode ]>
  (<[ ["kaonic-commd.sha256"] :=
        File (encode (get_file_hash_of (content b))) created_mode ]>
  (match signature with
   | Some sg => {[ ["kaonic-commd.sig"] := File sg created_mode ]}
   | None => ∅
   end))).

(** The release directory and the archive of a run. *)
Definition release_path_of (args : Namespace) : Path :=
  Path_ (output_dir args) // "kaonic-comm-ota".

Definition release_archive_path_of (args : Namespace) : Path :=
  Path_ (output_dir args) // "kaonic-comm-ota.zip".

(** The run is given no signing key ([signature] is [None]); or it is given
    one, a file of the host outside the release directory that loads as a
    private key, signs the binary [b] with [signature] and verifies that
    signature. *)
Definition signing (args : Namespace) (host : device) (b : file)
    (signature : option bytes) : Prop :=
  match signature with
  | None => sign_key args = ""
  | Some sg =>
      sign_key args <> "" /\
      exists key private_key,
        files host !! Path_ (sign_key args) = Some key /\
        ¬ release_path_of args `prefix_of` Path_ (sign_key args) /\
        Path_ (sign_key args) <> release_archive_path_of args /\
        load_pem_private_key (content key) = inr private_key /\
        private_sign private_key (content b) PKCS1v15 SHA256 = inr sg /\
        public_verify (private_public_key private_key) sg (content b) PKCS1v15 SHA256
          = None
  end.

End Tool.

End CreateOta.

(** ** From the tool to the agent *)

(** A text of printable ASCII characters without blanks, as a hexadecimal
    digest or the label [git describe] gives. *)
Definition plain (s : string) : bool :=
  forallb (fun c => (32 <? N_of_ascii c)%N && (N_of_ascii c <? 127)%N)
          (list_ascii_of_string s).

Section Delivery.
Context {CR : Cryptography} {ZF : Zipfile} {SG : CreateOta.Signing}.

(** The archive of the [upload] extracts to what was packed in it: the
    extraction gives [members], and in the temporary directory of the
    request each of the four required names holds the content packed under
    that name in [packed], or is missing when none was packed. *)
Definition delivers (upload : FileStorage) (packed : gmap Path file)
    (members : list (string * file)) : Prop :=
  extractall (stream upload) = inr members /\
  forall name, name ∈ required_files ->
    content <$> (unpack upload members !! name) = content <$> (packed !! [name]).

(** The device's trusted key is the public half of the signing key: what
    the tool's own verification accepts, the agent's verifier accepts. *)
Definition trusts (key : file) (private_key : CreateOta.private_key_object) : Prop :=
  forall message signature,
    CreateOta.public_verify (CreateOta.private_public_key private_key)
                            signature message PKCS1v15 SHA256 = None ->
    verify (content key) message signature = true.

End Delivery.

(** ** A workshop

    Stand-ins for the collaborators of the package tool, matching those of
    the laboratory: a private key file holds the letter of its kind and the
    key, an RSA signature is the key followed by the message, an archive is
    the laboratory's. *)
Module Workshop.
Import Lab CreateOta.

Inductive toy_key := RSAKey (k : bytes) | OtherKey (k : bytes).

#[export] Instance signing : Signing := {|
  private_key_object := toy_key;
  public_key_object := toy_key;
  load_pem_private_key := fun pem =>
    match pem with
    | [] => inl ValueError
    | kind :: k => if Byte.eqb kind Byte.x52 then inr (RSAKey k) else inr (OtherKey k)
    end;
  private_sign := fun key data _ _ =>
    match key with
    | RSAKey k => inr (k ++ data)
    | OtherKey _ => inl TypeError
    end;
  private_public_key := fun key => key;
  public_verify := fun key signature data _ _ =>
    match key with
    | RSAKey k => if bytes_eqb signature (k ++ data) then None else Some InvalidSignature
    | OtherKey _ => Some TypeError
    end
|}.

#[export] Instance archiver : Archiver := {|
  zip_archive := fun files =>
    pack (map (fun kv : Path * file => (default "" (head kv.1), content kv.2))
              (map_to_list files))
|}.

#[export] Instance codec : Codec := {|
  decode_utf7 := fun b => inr (string_of_list_byte b)
|}.

Definition BASE : Path := ["/"; "work"].

Definition built : file := File build_2 493.
Definition signing_key : file := File (Byte.x52 :: secret) 384.

(** A build host: the binary as built, executable, in the build directory;
    the signing key; and in the output directory what an earlier run left,
    an archive and a release directory. *)
Definition build_host : device :=
  Device (<[BASE // "release" // "kaonic-commd" := built]>
          (<[BASE // "ota.key" := signing_key]>
          (<[BASE // "deploy" // "kaonic-comm-ota.zip" := File (text "old") created_mode]>
          (<[BASE // "deploy" // "kaonic-comm-ota" // "kaonic-commd.sig"
               := File (text "stale") created_mode]> ∅))))
         {[ BASE; BASE // "release"; BASE // "deploy";
            BASE // "deploy" // "kaonic-comm-ota" ]} [].

Definition signed_run : Namespace :=
  {| build_dir := "/work/release"; output_dir := "/work/deploy";
     sign_key := "/work/ota.key"; keep := false |}.

Definition unsigned_run : Namespace :=
  {| build_dir := "/work/release"; output_dir := "/work/deploy";
     sign_key := ""; keep := true |}.

(** What [git describe] printed. *)
Definition described_text : string := "v1.0-2-gabc" ++ newline.
Definition described : bytes := text described_text.

(** The upload of an archive, as the agent receives it. *)
Definition storage_of (archive : bytes) : FileStorage :=
  {| content_type := "application/x-zip-compressed"; stream := archive |}.

Definition upload_file (archive : bytes) : request :=
  {| request_files := {[ "file" := storage_of archive ]} |}.

(** An archive without the version label and without the signature. *)
Definition incomplete : FileStorage :=
  storage_of (pack [("kaonic-commd", build_2);
                    ("kaonic-commd.sha256", text (get_file_hash_of build_2))]).

(** The archives the two runs make. *)
Definition signed_archive : bytes :=
  zip_archive (release_tree built (version_label described_text) (Some (secret ++ build_2))).

Definition unsigned_archive : bytes :=
  zip_archive (release_tree built (version_label described_text) None).

End Workshop.
(** ** What running a block amounts to *)

Lemma run_bind {R A B} (m : prog R A) (f : A -> prog R B) w :
  run (m ≫= f) w = and_then (run m w) (fun a w' => run (f a) w').
Proof.
  revert w. induction m as [[a|r|e]|C act k IH]; intros w; try done.
  change (run (Act act (fun b => k b ≫= f)) w
          = and_then (run (Act act k) w) (fun a w' => run (f a) w')).
  simpl. destruct (act w) as [b w']. apply IH.
Qed.

Lemma run_fmap {R A B} (g : A -> B) (m : prog R A) w :
  run (g <$> m) w = and_then (run m w) (fun a w' => (Next (g a), w')).
Proof. apply (run_bind m (fun a => Fin (Next (g a)))). Qed.

Lemma run_try_except {R A} (m : prog R A) (h : exn -> prog R A) w :
  run (try_except m h) w =
  match run m w with
  | (Raised e, w') => run (h e) w'
  | r => r
  end.
Proof.
  revert w. induction m as [[a|r|e]|C act k IH]; intros w; try done.
  simpl. destruct (act w) as [b w']. apply IH.
Qed.

Lemma run_finally {R A} (m : prog R A) (cleanup : world -> world) w :
  run (finally m cleanup) w = let (o, w') := run m w in (o, cleanup w').
Proof.
  revert w. induction m as [o|C act k IH]; intros w; [done|].
  simpl. destruct (act w) as [b w']. apply IH.
Qed.

Lemma run_call_function {R R'} (body : prog R Empty_set) w :
  run (call_function (R':=R') body) w =
  match run body w with
  | (Next x, _) => match x with end
  | (Returned r, w') => (Next r, w')
  | (Raised e, w') => (Raised e, w')
  end.
Proof.
  revert w. induction body as [[[]|r|e]|C act k IH]; intros w; try done.
  simpl. destruct (act w) as [b w']. apply IH.
Qed.

Lemma run_call_procedure {R'} (body : prog unit unit) w :
  run (call_procedure (R':=R') body) w =
  match run body w with
  | (Next _, w') | (Returned _, w') => (Next tt, w')
  | (Raised e, w') => (Raised e, w')
  end.
Proof.
  revert w. induction body as [[[]|r|e]|C act k IH]; intros w; try done.
  simpl. destruct (act w) as [b w']. apply IH.
Qed.

Lemma run_for_each_store {R} (members : list (string * file)) w :
  run (R:=R) (for_each members
         (fun m => perform (fun w => inr (store_file (InTmp m.1) m.2 w)))) w
  = (Next tt, World (dev w) (foldl (fun t m => <[m.1 := m.2]> t) (tmp w) members)).
Proof.
  revert w. induction members as [|m members IH]; intros w; [by destruct w|].
  change (for_each (m :: members) ?f) with (f m;; for_each members f).
  rewrite run_bind. simpl. by rewrite IH.
Qed.

Section Blocks.
Context {HL : Hashlib} {CR : Cryptography} {ZF : Zipfile} {SD : Systemd}.

Lemma run_backup_current {R} w :
  run (R:=R) backup_current w = (Next tt, World (backed_up (dev w)) (tmp w)).
Proof.
  destruct w as [[fs ds js] t]. unfold backup_current, backed_up. simpl.
  destruct (fs !! BACKUP_PATH) as [b|] eqn:Eb; simpl; rewrite ?Eb; simpl.
  - rewrite lookup_delete_ne by done.
    destruct (fs !! APP_PATH) as [a|] eqn:Ea; simpl; [|done].
    by rewrite lookup_delete_ne, Ea by done.
  - destruct (fs !! APP_PATH) as [a|] eqn:Ea; simpl; [|done].
    by rewrite Ea.
Qed.

Lemma run_restore_backup {R} w :
  run (R:=R) restore_backup w = (Next tt, World (restored (dev w)) (tmp w)).
Proof.
  destruct w as [[fs ds js] t]. unfold restore_backup, restored. simpl.
  destruct (fs !! BACKUP_PATH) as [b|] eqn:Eb; simpl; [|done].
  by rewrite Eb.
Qed.

Lemma run_validate_signature {R} (file_path sig_path key_path : path) w :
  run (R:=R) (validate_signature file_path sig_path key_path) w
  = (Next (signature_checks w file_path sig_path key_path), w).
Proof.
  unfold validate_signature, signature_checks, verify.
  rewrite run_call_function, run_try_except. simpl.
  destruct (lookup_file w key_path) as [key|]; simpl; [|done].
  destruct (load_pem_public_key (content key)) as [e|pk]; simpl.
  { destruct (lookup_file w file_path), (lookup_file w sig_path); by destruct e. }
  destruct (lookup_file w file_path) as [data|]; simpl; [|done].
  destruct (lookup_file w sig_path) as [sg|]; simpl; [|done].
  destruct pk as [k|k|k]; simpl; [| |done].
  - by destruct (rsa_verify k (content sg) (content data) PKCS1v15 SHA256) as [[]|].
  - by destruct (ed25519_verify k (content sg) (content data)) as [[]|].
Qed.

Lemma run_watch {R} n w :
  run (R:=R) (for_range n (
    running ← is_kaonic_running;
    if running : bool then sleep 1;; mret Continue
    else mret Break)) w
  = (Next tt, World (watched n (dev w)) (tmp w)).
Proof.
  revert w. induction n as [|n IH]; intros w; [by destruct w|].
  simpl. destruct (systemctl_is_active (dev w) =? 0)%Z eqn:E; simpl; [|done].
  by rewrite IH.
Qed.

Lemma run_watch_service {R} w :
  run (R:=R) watch_service w = (Next tt, World (watched 10 (dev w)) (tmp w)).
Proof. apply run_watch. Qed.

Lemma candidate_Some request d c :
  candidate request d = Some c ->
  exists upload key members,
    request_files request !! "file" = Some upload /\
    content_type upload = "application/x-zip-compressed" /\
    files d !! VERIFY_KEY_PATH = Some key /\
    extractall (stream upload) = inr members /\
    unpack upload members !! "kaonic-commd" = Some (binary c) /\
    unpack upload members !! "kaonic-commd.sha256" = Some (digest_file c) /\
    unpack upload members !! "kaonic-commd.version" = Some (version_file c) /\
    unpack upload members !! "kaonic-commd.sig" = Some (signature_file c).
Proof.
  unfold candidate. intros Hc.
  destruct (request_files request !! "file") as [upload|] eqn:Eu; [|done]. simpl in Hc.
  destruct (content_type upload =? "application/x-zip-compressed") eqn:Ect; [|done].
  destruct (files d !! VERIFY_KEY_PATH) as [key|] eqn:Ek; [|done]. simpl in Hc.
  destruct (extractall (stream upload)) as [e|members] eqn:Ex; [done|].
  destruct (unpack upload members !! "kaonic-commd") as [b|] eqn:E1; [|done].
  destruct (unpack upload members !! "kaonic-commd.sha256") as [h|] eqn:E2; [|done].
  destruct (unpack upload members !! "kaonic-commd.version") as [v|] eqn:E3; [|done].
  destruct (unpack upload members !! "kaonic-commd.sig") as [s|] eqn:E4; [|done].
  simpl in Hc. injection Hc as <-. simpl.
  apply String.eqb_eq in Ect. eauto 12.
Qed.

Lemma run_mbind {R A B} (m : prog R A) (f : A -> prog R B) w :
  run (prog_bind A B f m) w = and_then (run m w) (fun a w' => run (f a) w').
Proof. apply run_bind. Qed.

Opaque validate_signature backup_current restore_backup watch_service
  sha256sum_of strip decode watched.

Ltac bind_step := first [rewrite run_bind | rewrite run_mbind].

Lemma run_upload_ota request d c :
  candidate request d = Some c ->
  run_on d (upload_ota request)
  = let (r, d') := transaction c d in (Returned r, d').
Proof.
  intros (upload & key & members & Eu & Ect & Ek & Ex & E1 & E2 & E3 & E4)%candidate_Some.
  unfold run_on, upload_ota.
  rewrite Eu. simpl. rewrite Ect. simpl. rewrite Ek. simpl.
  rewrite run_finally, run_mbind, run_try_except. simpl.
  rewrite lookup_insert_eq. simpl. rewrite Ex. simpl.
  rewrite run_for_each_store. simpl.
  fold (unpack upload members).
  rewrite E1; simpl. rewrite E2; simpl. rewrite E3; simpl. rewrite E4; simpl.
  rewrite E2; simpl. rewrite E1; simpl.
  unfold transaction, integrity, authenticity.
  destruct (strip (decode (content (digest_file c))) =? sha256sum_of (content (binary c)));
    simpl; [|done].
  rewrite run_bind, run_validate_signature. unfold signature_checks. simpl.
  rewrite Ek, E1, E4.
  destruct (verify (content key) (content (binary c)) (content (signature_file c)));
    simpl; [|done].
  bind_step. rewrite run_backup_current. simpl.
  rewrite E1. simpl. rewrite lookup_insert_eq. simpl. rewrite lookup_insert_eq. simpl.
  bind_step. rewrite run_watch_service.
  match goal with |- context [watched 10 (dev ?w)] =>
    replace (dev w) with (installed c d)
  end.
  2:{ done. }
  unfold probe. simpl.
  destruct (systemctl_is_active (watched 10 (installed c d)) =? 0)%Z; simpl.
  - rewrite E2. simpl. by rewrite E3.
  - bind_step. by rewrite run_restore_backup.
Qed.

Lemma run_get_version d :
  run_on d get_version = (Returned (recorded d), d).
Proof.
  unfold run_on, get_version, recorded. destruct d as [fs ds js]. simpl.
  destruct (fs !! VERSION_PATH) as [v|] eqn:Ev; simpl; [|done].
  destruct (fs !! HASH_PATH) as [h|] eqn:Eh; simpl; [|done].
  rewrite Ev. simpl. by rewrite Eh.
Qed.

Lemma run_validate_app_file {R} d :
  run_on d (call_procedure (R':=R) validate_app_file) = (Next tt, reconciled d).
Proof.
  unfold run_on, validate_app_file, reconciled, trusted.
  rewrite run_call_procedure. destruct d as [fs ds js]. simpl.
  destruct (bool_decide (METADATA_PATH ∈ ds)) eqn:Em; simpl; rewrite ?Em; simpl; [|done].
  destruct (fs !! APP_PATH) as [a|] eqn:Ea; simpl.
  - destruct (fs !! HASH_PATH) as [h|] eqn:Eh; simpl.
    + rewrite Eh; simpl. rewrite Ea; simpl. rewrite Ea; simpl.
      rewrite Ea; simpl. rewrite Eh; simpl.
      destruct (strip (decode (content h)) =? sha256sum_of (content a)); simpl; [done|].
      bind_step. by rewrite run_restore_backup.
    + rewrite Ea; simpl. rewrite Ea; simpl. rewrite Ea; simpl. rewrite Eh; simpl.
      bind_step. by rewrite run_restore_backup.
  - destruct (fs !! BACKUP_PATH) as [b|] eqn:Eb; simpl; [|done].
    destruct (fs !! HASH_PATH) as [h|] eqn:Eh; simpl; rewrite ?Eh; simpl;
      rewrite Ea; simpl; rewrite Ea; simpl;
      bind_step; by rewrite run_restore_backup.
Qed.

Lemma run_upload_ota_rejected request d :
  candidate request d = None ->
  run_on d (upload_ota request) = (rejection request d, d).
Proof.
  unfold candidate, rejection, run_on, upload_ota. intros Hc.
  destruct (request_files request !! "file") as [upload|] eqn:Eu; simpl; [|done].
  simpl in Hc.
  destruct (content_type upload =? "application/x-zip-compressed") eqn:Ect; simpl; [|done].
  simpl in Hc.
  destruct (files d !! VERIFY_KEY_PATH) as [key|] eqn:Ek; simpl; rewrite ?Ek; simpl; [|done].
  simpl in Hc.
  rewrite run_finally, run_mbind, run_try_except. simpl.
  rewrite lookup_insert_eq. simpl.
  destruct (extractall (stream upload)) as [e|members] eqn:Ex; simpl.
  { by destruct e. }
  rewrite run_for_each_store. simpl. fold (unpack upload members).
  destruct (unpack upload members !! "kaonic-commd") as [b|] eqn:E1; simpl; [|done].
  destruct (unpack upload members !! "kaonic-commd.sha256") as [h|] eqn:E2; simpl; [|done].
  destruct (unpack upload members !! "kaonic-commd.version") as [v|] eqn:E3; simpl; [|done].
  destruct (unpack upload members !! "kaonic-commd.sig") as [sg|] eqn:E4; simpl; [|done].
  done.
Qed.

Transparent validate_signature backup_current restore_backup watch_service
  sha256sum_of strip decode watched.

End Blocks.

(** ** The digest *)

Lemma read_chunks_whole {HL : Hashlib} size h f :
  hashlib_contract ->
  (0 < size)%N ->
  read_chunks size h f = update h f.
Proof.
  intros Hcontract Hpos.
  funelim (read_chunks size h f).
  - destruct f as [|x f]; [by rewrite update_empty|].
    destruct (N.to_nat size) eqn:En; [lia|done].
  - match goal with IH : _ -> _ -> read_chunks _ _ _ = update _ _ |- _ =>
      rewrite IH by done end.
    match goal with E : take _ _ = _ |- _ => rewrite <- E end.
    by rewrite update_concat, take_drop.
Qed.

(** C9. The digest is a function of the content alone: under the contract
    of hashlib (feeding nothing changes nothing, feeding two chunks is
    feeding their concatenation) the chunked loop computes the SHA-256 hex
    digest of the whole content whatever the positive chunk size, so the
    agent's [sha256sum] (4096-byte chunks) and the package tool's
    [get_file_hash] (8192-byte chunks) give the same digest of the same
    content; and [sha256sum] reads the file without changing anything. *)
Theorem digest_independent_of_chunking {HL : Hashlib} (B : bytes) :
  hashlib_contract ->
  sha256sum_of B = sha256_hex B /\
  get_file_hash_of B = sha256_hex B /\
  sha256sum_of B = get_file_hash_of B /\
  (forall size, (0 < size)%N -> hexdigest (read_chunks size sha256 B) = sha256_hex B) /\
  (forall R w p f, lookup_file w p = Some f -> content f = B ->
     run (R:=R) (sha256sum p) w = (Next (sha256_hex B), w)) /\
  (forall host filepath, host !! filepath = Some B ->
     get_file_hash host filepath = Some (sha256_hex B)).
Proof.
  intros Hcontract.
  assert (Hall : forall size, (0 < size)%N ->
            hexdigest (read_chunks size sha256 B) = sha256_hex B).
  { intros size Hpos. unfold sha256_hex. by rewrite read_chunks_whole. }
  assert (H1 : sha256sum_of B = sha256_hex B) by (apply Hall; lia).
  assert (H2 : get_file_hash_of B = sha256_hex B) by (apply Hall; lia).
  split_and!.
  - exact H1.
  - exact H2.
  - rewrite H1, H2. reflexivity.
  - exact Hall.
  - intros R w p f Hf <-. unfold sha256sum, read_bytes.
    rewrite !run_bind. cbn [run ask and_then]. rewrite Hf.
    cbn [run mret prog_ret and_then]. rewrite H1. reflexivity.
  - intros host filepath Hf. unfold get_file_hash. rewrite Hf.
    cbn [mbind option_bind]. rewrite H2. reflexivity.
Qed.

(** ** The health probe in closed form *)

Lemma leaves_record_active_turns k : leaves_record (active_turns k).
Proof. induction k; repeat constructor; done. Qed.

Section Probe.
Context {SD : Systemd}.

Lemma watched_frame n d :
  files (watched n d) = files d /\ dirs (watched n d) = dirs d.
Proof.
  revert d. induction n as [|n IH]; intros d; [done|]. simpl.
  destruct (systemctl_is_active d =? 0)%Z; [|done].
  destruct (IH (logged (Sleep 1) (logged (SystemctlIsActive (systemctl_is_active d)) d)))
    as [-> ->]. done.
Qed.

(** The loop makes [k <= n] checks that report active and sleeps after each;
    when [k < n] it was a further check, reporting not active, that ended
    it. *)
Lemma watched_journal n d :
  exists k js,
    k <= n /\
    journal (watched n d) = journal d ++ active_turns k ++ js /\
    (k = n /\ js = [] \/
     k < n /\ exists rc, rc <> 0%Z /\ js = [SystemctlIsActive rc] /\
              exists d', rc = systemctl_is_active d').
Proof.
  revert d. induction n as [|n IH]; intros d.
  { exists 0, []. simpl. rewrite app_nil_r. auto. }
  simpl. destruct (systemctl_is_active d =? 0)%Z eqn:E.
  - apply Z.eqb_eq in E. rewrite E.
    destruct (IH (logged (Sleep 1) (logged (SystemctlIsActive 0) d)))
      as (k & js & Hk & Hj & Hend).
    exists (S k), js. split; [lia|]. split.
    + rewrite Hj. simpl. by rewrite <- !app_assoc.
    + destruct Hend as [[-> ->]|[Hlt Hrc]]; [by left|right; split; [lia|done]].
  - apply Z.eqb_neq in E.
    exists 0, [SystemctlIsActive (systemctl_is_active d)]. split; [lia|].
    split; [done|]. right. split; [lia|]. eauto 6.
Qed.

Lemma watched_stops n d :
  systemctl_is_active d <> 0%Z ->
  watched (S n) d = logged (SystemctlIsActive (systemctl_is_active d)) d.
Proof. intros Hne. simpl. by apply Z.eqb_neq in Hne as ->. Qed.

Lemma probe_frame d :
  files (probe d).2 = files d /\ dirs (probe d).2 = dirs d.
Proof. unfold probe. cbn [fst snd logged files dirs]. apply watched_frame. Qed.

Lemma probe_journal d :
  exists js rc,
    journal (probe d).2 = journal d ++ js ++ [SystemctlIsActive rc] /\
    (probe d).1 = (rc =? 0)%Z /\
    leaves_record js.
Proof.
  unfold probe. cbn [fst snd logged journal].
  destruct (watched_journal 10 d) as (k & js & _ & -> & Hend).
  exists (active_turns k ++ js), (systemctl_is_active (watched 10 d)).
  split; [by rewrite <- !app_assoc|]. split; [done|].
  apply Forall_app. split; [apply leaves_record_active_turns|].
  destruct Hend as [[_ ->]|[_ (rc & _ & -> & _)]]; by repeat constructor.
Qed.

(** A service that never reports active fails the probe. *)
Lemma probe_never_active d :
  (forall d', systemctl_is_active d' <> 0%Z) -> (probe d).1 = false.
Proof. intros Hn. unfold probe. cbn [fst]. apply Z.eqb_neq, Hn. Qed.

End Probe.

Opaque watched.

(** ** Files and journal after each stage *)

Lemma backed_up_files d q :
  files (backed_up d) !! q =
  if decide (q = BACKUP_PATH) then files d !! APP_PATH else files d !! q.
Proof.
  destruct d as [fs ds js]. unfold backed_up. simpl.
  destruct (fs !! BACKUP_PATH) as [b|] eqn:Eb; simpl.
  - rewrite lookup_delete_ne by done.
    destruct (fs !! APP_PATH) as [a|] eqn:Ea; simpl; case_decide; subst;
      by rewrite ?lookup_insert_eq, ?lookup_delete_eq, ?lookup_insert_ne,
                 ?lookup_delete_ne by done.
  - destruct (fs !! APP_PATH) as [a|] eqn:Ea; simpl; case_decide; subst;
      by rewrite ?lookup_insert_eq, ?lookup_insert_ne by done.
Qed.

Lemma backed_up_journal d :
  dirs (backed_up d) = dirs d /\
  exists js, journal (backed_up d) = journal d ++ js /\ leaves_record js.
Proof.
  destruct d as [fs ds js]. unfold backed_up. simpl.
  destruct (fs !! BACKUP_PATH) as [b|]; simpl.
  - rewrite lookup_delete_ne by done.
    destruct (fs !! APP_PATH) as [a|]; simpl; (split; [done|]).
    + exists [Unlinked BACKUP_PATH; Wrote BACKUP_PATH].
      rewrite <- app_assoc. split; [done|]. by repeat constructor.
    + exists [Unlinked BACKUP_PATH]. split; [done|]. by repeat constructor.
  - destruct (fs !! APP_PATH) as [a|]; simpl; (split; [done|]).
    + exists [Wrote BACKUP_PATH]. split; [done|]. by repeat constructor.
    + exists []. rewrite app_nil_r. split; [done|]. constructor.
Qed.

Lemma installed_files c d q :
  files (installed c d) !! q =
  if decide (q = APP_PATH) then Some (executable (binary c))
  else if decide (q = BACKUP_PATH) then files d !! APP_PATH
  else files d !! q.
Proof.
  unfold installed, set_mode, write, logged, with_files. simpl.
  case_decide; subst; [by rewrite lookup_insert_eq|].
  rewrite !lookup_insert_ne by done.
  by rewrite (backed_up_files (Device (files d) (dirs d) (journal d ++ [SystemctlStop])) q).
Qed.

Lemma installed_journal c d :
  dirs (installed c d) = dirs d /\
  exists js,
    journal (installed c d)
    = journal d ++ [SystemctlStop] ++ js
      ++ [Wrote APP_PATH; Chmod APP_PATH (executable_mode (binary c)); SystemctlStart] /\
    leaves_record js.
Proof.
  unfold installed, set_mode, write, logged, with_files. simpl.
  destruct (backed_up_journal (Device (files d) (dirs d) (journal d ++ [SystemctlStop])))
    as (-> & js & -> & Hjs).
  split; [done|]. exists js. simpl. split; [|done].
  by rewrite <- !app_assoc.
Qed.

Lemma restored_files d q :
  files (restored d) !! q =
  if decide (q = APP_PATH)
  then match files d !! BACKUP_PATH with Some b => Some b | None => files d !! APP_PATH end
  else files d !! q.
Proof.
  unfold restored. destruct (files d !! BACKUP_PATH) as [b|]; simpl;
    case_decide; subst; by rewrite ?lookup_insert_eq, ?lookup_insert_ne by done.
Qed.

Lemma restored_journal d :
  dirs (restored d) = dirs d /\
  journal (restored d)
  = journal d ++ (if present (files d !! BACKUP_PATH) then [Wrote APP_PATH] else []).
Proof.
  unfold restored. destruct (files d !! BACKUP_PATH) as [b|]; simpl; [done|].
  by rewrite app_nil_r.
Qed.

(** ** The journal is kept faithfully *)

Lemma journalled_bind {R A B} (m : prog R A) (f : A -> prog R B) :
  journalled m -> (forall a, journalled (f a)) -> journalled (m ≫= f).
Proof.
  intros Hm Hf. induction m as [[a|r|e]|C act k IH]; try done.
  - apply Hf.
  - destruct Hm as [Hact Hk]. split; [done|]. intros b. by apply IH.
Qed.

Lemma journalled_fmap {R A B} (g : A -> B) (m : prog R A) :
  journalled m -> journalled (g <$> m).
Proof. intros Hm. by apply (journalled_bind m (fun a => Fin (Next (g a)))). Qed.

Lemma journalled_try_except {R A} (m : prog R A) (h : exn -> prog R A) :
  journalled m -> (forall e, journalled (h e)) -> journalled (try_except m h).
Proof.
  intros Hm Hh. induction m as [[a|r|e]|C act k IH]; try done.
  - apply Hh.
  - destruct Hm as [Hact Hk]. split; [done|]. intros b. by apply IH.
Qed.

Lemma journalled_call_function {R R'} (body : prog R Empty_set) :
  journalled body -> journalled (call_function (R':=R') body).
Proof.
  intros Hm. induction body as [[[]|r|e]|C act k IH]; try done.
  destruct Hm as [Hact Hk]. split; [done|]. intros b. by apply IH.
Qed.

Lemma journalled_call_procedure {R'} (body : prog unit unit) :
  journalled body -> journalled (call_procedure (R':=R') body).
Proof.
  intros Hm. induction body as [[[]|r|e]|C act k IH]; try done.
  destruct Hm as [Hact Hk]. split; [done|]. intros b. by apply IH.
Qed.

Lemma later_refl d : later d d [].
Proof. unfold later. by rewrite app_nil_r. Qed.

Lemma later_trans d1 d2 d3 js1 js2 :
  later d1 d2 js1 -> later d2 d3 js2 -> later d1 d3 (js1 ++ js2).
Proof.
  intros (Hj1 & Hf1 & Hd1) (Hj2 & Hf2 & Hd2). split_and!.
  - by rewrite Hj2, Hj1, app_assoc.
  - intros q [H1 H2]%Forall_app. by rewrite Hf2, Hf1.
  - intros [H1 H2]%Forall_app. by rewrite Hd2, Hd1.
Qed.

Lemma journalled_silent {B} (act : world -> B * world) :
  (forall w, dev (act w).2 = dev w) -> journalled_act act.
Proof.
  intros Hsame w. exists []. rewrite Hsame. apply later_refl.
Qed.

Lemma journalled_finally {R A} (m : prog R A) (cleanup : world -> world) :
  journalled m -> (forall w, dev (cleanup w) = dev w) -> journalled (finally m cleanup).
Proof.
  intros Hm Hc. induction m as [o|C act k IH].
  - split; [|done]. by apply journalled_silent.
  - destruct Hm as [Hact Hk]. split; [done|]. intros b. by apply IH.
Qed.

Lemma journalled_ask {R A} (f : world -> A) : journalled (R:=R) (ask f).
Proof. split; [|done]. by apply journalled_silent. Qed.

Lemma journalled_perform {R} (f : world -> exn + world) :
  (forall w w', f w = inr w' -> exists js, later (dev w) (dev w') js) ->
  journalled (R:=R) (perform f).
Proof.
  intros Hf. split; [|by intros []].
  intros w. destruct (f w) as [e|w'] eqn:E; simpl.
  - exists []. apply later_refl.
  - by apply Hf.
Qed.

Lemma journalled_for_each {R A} (l : list A) (body : A -> prog R unit) :
  (forall x, journalled (body x)) -> journalled (for_each l body).
Proof.
  intros Hb. induction l as [|x l IH]; [done|].
  apply (journalled_bind (body x)); [apply Hb|]. intros _. apply IH.
Qed.

Lemma journalled_for_range {R} n (body : prog R loop_control) :
  journalled body -> journalled (for_range n body).
Proof.
  intros Hb. induction n as [|n IH]; [done|].
  apply (journalled_bind body); [done|]. by intros [].
Qed.

(** What the changes of the world add to the journal. *)
Lemma store_file_journalled p x w :
  exists js, later (dev w) (dev (store_file p x w)) js.
Proof.
  destruct p as [p|name]; simpl.
  - exists [Wrote p]. split; [done|]. split; [|done].
    intros q [(Hq & _) _]%Forall_cons.
    apply lookup_insert_ne. congruence.
  - exists []. apply later_refl.
Qed.

Lemma remove_file_journalled p w :
  exists js, later (dev w) (dev (remove_file p w)) js.
Proof.
  destruct p as [p|name]; simpl.
  - exists [Unlinked p]. split; [done|]. split; [|done].
    intros q [(_ & Hq & _) _]%Forall_cons.
    apply lookup_delete_ne. congruence.
  - exists []. apply later_refl.
Qed.

Lemma change_mode_journalled p x mode w :
  exists js, later (dev w) (dev (change_mode p x mode w)) js.
Proof.
  destruct p as [p|name]; simpl.
  - exists [Chmod p mode]. split; [done|]. split; [|done].
    intros q [(_ & _ & Hq) _]%Forall_cons.
    apply lookup_insert_ne. intros ->. by apply (Hq mode).
  - exists []. apply later_refl.
Qed.

Lemma record_call_journalled e w :
  (forall q, spares q e) -> (forall p, e <> Mkdir p) ->
  exists js, later (dev w) (dev (record_call e w)) js.
Proof. intros _ _. by exists [e]. Qed.

(** Every moment of a block that keeps the journal faithfully lies between
    its beginning and its end. *)
Lemma run_later {R A} (m : prog R A) w :
  journalled m -> exists js, later (dev w) (dev (run m w).2) js.
Proof.
  revert w. induction m as [o|B act k IH]; intros w Hm.
  { exists []. apply later_refl. }
  destruct Hm as [Hact Hk]. simpl.
  destruct (Hact w) as (js1 & H1). destruct (act w) as [b w1]. simpl in H1.
  destruct (IH b w1 (Hk b)) as (js2 & H2).
  exists (js1 ++ js2). by eapply later_trans.
Qed.

Lemma steps_later {R A} n (m : prog R A) w :
  journalled m ->
  journalled (steps n m w).1 /\
  run (steps n m w).1 (steps n m w).2 = run m w /\
  exists js, later (dev w) (dev (steps n m w).2) js.
Proof.
  revert m w. induction n as [|n IH]; intros m w Hm.
  { split; [done|]. split; [done|]. exists []. apply later_refl. }
  destruct m as [o|B act k].
  { simpl. by apply IH. }
  destruct Hm as [Hact Hk]. simpl.
  destruct (Hact w) as (js1 & H1). destruct (act w) as [b w1]. simpl in H1.
  destruct (IH (k b) w1 (Hk b)) as (Hj & Hr & js2 & H2).
  split; [done|]. split; [done|].
  exists (js1 ++ js2). by eapply later_trans.
Qed.

Lemma moment {R A} (m : prog R A) w n :
  journalled m ->
  exists js js',
    later (dev w) (dev (steps n m w).2) js /\
    later (dev (steps n m w).2) (dev (run m w).2) js'.
Proof.
  intros Hm. destruct (steps_later n m w Hm) as (Hj & Hr & js & Hjs).
  destruct (run_later (steps n m w).1 (steps n m w).2 Hj) as (js' & Hjs').
  rewrite Hr in Hjs'. eauto.
Qed.

(** A device on which nothing was journalled is the same device. *)
Lemma later_nothing d d' : later d d' [] -> d' = d.
Proof.
  intros (Hj & Hf & Hd). rewrite app_nil_r in Hj.
  destruct d as [fs ds js], d' as [fs' ds' js']. simpl in *.
  f_equal; [|by apply Hd|done].
  apply map_eq. intros q. by apply Hf.
Qed.

Section Journalled.
Context {HL : Hashlib} {CR : Cryptography} {ZF : Zipfile} {SD : Systemd}.

Lemma journalled_read_bytes {R} p : journalled (R:=R) (read_bytes p).
Proof.
  apply (journalled_bind (ask _)); [apply journalled_ask|]. by intros [f|].
Qed.

Lemma journalled_read_text {R} p : journalled (R:=R) (read_text p).
Proof.
  apply (journalled_bind (read_bytes p)); [apply journalled_read_bytes|done].
Qed.

Lemma journalled_copy2 {R} src dst : journalled (R:=R) (copy2 src dst).
Proof.
  apply journalled_perform. intros w w' Hw.
  destruct (lookup_file w src) as [f|]; [|done].
  injection Hw as <-. apply store_file_journalled.
Qed.

Lemma journalled_unlink {R} p : journalled (R:=R) (unlink p).
Proof.
  apply journalled_perform. intros w w' Hw.
  destruct (lookup_file w p) as [f|]; [|done].
  injection Hw as <-. apply remove_file_journalled.
Qed.

Lemma journalled_chmod {R} p mode : journalled (R:=R) (chmod p mode).
Proof.
  apply journalled_perform. intros w w' Hw.
  destruct (lookup_file w p) as [f|]; [|done].
  injection Hw as <-. apply change_mode_journalled.
Qed.

Lemma journalled_stat {R} p : journalled (R:=R) (stat_st_mode p).
Proof.
  apply (journalled_bind (ask _)); [apply journalled_ask|]. by intros [f|].
Qed.

Lemma journalled_record {R} e :
  (forall q, spares q e) -> (forall p, e <> Mkdir p) ->
  journalled (R:=R) (perform (fun w => inr (record_call e w))).
Proof.
  intros H1 H2. apply journalled_perform. intros w w' [= <-].
  by apply record_call_journalled.
Qed.

Lemma journalled_mkdir_parents {R} q : journalled (R:=R) (mkdir_parents q).
Proof.
  apply journalled_perform. intros w w' Hw.
  destruct (bool_decide (q ∈ dirs (dev w))); [done|]. injection Hw as <-. simpl.
  exists [Mkdir q]. split; [done|]. split; [done|].
  intros [Hq _]%Forall_cons. by destruct (Hq q).
Qed.

Lemma journalled_is_kaonic_running {R} : journalled (R:=R) is_kaonic_running.
Proof.
  split; [|done]. intros w. simpl.
  by exists [SystemctlIsActive (systemctl_is_active (dev w))].
Qed.

Lemma journalled_sha256sum {R} p : journalled (R:=R) (sha256sum p).
Proof.
  apply (journalled_bind (read_bytes p)); [apply journalled_read_bytes|done].
Qed.

Lemma journalled_backup_current {R} : journalled (R:=R) backup_current.
Proof.
  unfold backup_current.
  apply (journalled_bind (exists_ _)); [apply journalled_ask|]. intros b1.
  apply (journalled_bind (when _ _)); [destruct b1; [apply journalled_unlink|done]|].
  intros _.
  apply (journalled_bind (exists_ _)); [apply journalled_ask|]. intros b2.
  destruct b2; [apply journalled_copy2|done].
Qed.

Lemma journalled_restore_backup {R} : journalled (R:=R) restore_backup.
Proof.
  unfold restore_backup.
  apply (journalled_bind (exists_ _)); [apply journalled_ask|]. intros b.
  destruct b; [apply journalled_copy2|done].
Qed.

Lemma journalled_validate_signature {R} file_path sig_path key_path :
  journalled (R:=R) (validate_signature file_path sig_path key_path).
Proof.
  unfold validate_signature. apply journalled_call_function.
  apply journalled_try_except; [|by intros []].
  apply (journalled_bind (read_bytes _)); [apply journalled_read_bytes|]. intros key_pem.
  apply (journalled_bind (lift _)); [by destruct (load_pem_public_key key_pem)|].
  intros pk.
  apply (journalled_bind (read_bytes _)); [apply journalled_read_bytes|]. intros data.
  apply (journalled_bind (read_bytes _)); [apply journalled_read_bytes|]. intros sg.
  apply (journalled_bind (match pk with RSAPublicKey _ => _ | _ => _ end)); [|done].
  destruct pk as [k|k|k]; [| |done].
  - by destruct (rsa_verify k sg data PKCS1v15 SHA256).
  - by destruct (ed25519_verify k sg data).
Qed.

Ltac journalled_next :=
  match goal with
  | |- journalled (?m ≫= _) => apply (journalled_bind m); [|intros ?]
  end.

Lemma journalled_watch_service {R} : journalled (R:=R) watch_service.
Proof.
  apply journalled_for_range.
  journalled_next; [apply journalled_is_kaonic_running|].
  match goal with b : bool |- _ => destruct b end; [|done].
  journalled_next; [by apply journalled_record|done].
Qed.

Lemma journalled_upload_ota request : journalled (upload_ota request).
Proof.
  unfold upload_ota.
  journalled_next; [by destruct (negb _)|].
  journalled_next; [by destruct (request_files request !! "file")|].
  journalled_next; [by destruct (negb _)|].
  journalled_next; [apply journalled_fmap, journalled_ask|].
  journalled_next; [by match goal with b : bool |- _ => destruct b end|].
  unfold with_temporary_directory.
  journalled_next.
  { apply journalled_perform. intros w w' [= <-]. exists []. apply later_refl. }
  apply journalled_finally; [|done]. cbv zeta.
  journalled_next.
  { apply journalled_perform. intros w w' [= <-].
    exact (store_file_journalled (InTmp "upload.zip") _ w). }
  journalled_next.
  { apply journalled_try_except; [|by intros []].
    unfold extract_into_tmp.
    journalled_next; [apply journalled_read_bytes|].
    journalled_next; [by match goal with |- context [extractall ?a] =>
                           destruct (extractall a) end|].
    apply journalled_for_each. intros m.
    apply journalled_perform. intros w w' [= <-].
    exact (store_file_journalled (InTmp m.1) m.2 w). }
  journalled_next.
  { apply journalled_for_each. intros name.
    journalled_next; [apply journalled_fmap, journalled_ask|].
    by match goal with b : bool |- _ => destruct b end. }
  journalled_next; [apply journalled_fmap, journalled_read_text|].
  journalled_next; [apply journalled_sha256sum|].
  journalled_next; [by destruct (negb _)|].
  journalled_next; [apply journalled_validate_signature|].
  journalled_next; [by destruct (negb _)|].
  journalled_next; [by apply journalled_record|].
  journalled_next; [apply journalled_backup_current|].
  journalled_next; [apply journalled_copy2|].
  journalled_next; [apply journalled_stat|].
  journalled_next; [apply journalled_chmod|].
  journalled_next; [by apply journalled_record|].
  journalled_next; [apply journalled_watch_service|].
  journalled_next; [apply journalled_is_kaonic_running|].
  match goal with b : bool |- _ => destruct b end.
  - journalled_next; [apply journalled_copy2|].
    journalled_next; [apply journalled_copy2|done].
  - journalled_next; [apply journalled_restore_backup|].
    journalled_next; [by apply journalled_record|done].
Qed.

End Journalled.

(** ** Requests handled one after the other *)

Lemma interleave_app s1 s2 t1 t2 d :
  interleave (s1 ++ s2) t1 t2 d =
  let '(t1', t2', d') := interleave s1 t1 t2 d in interleave s2 t1' t2' d'.
Proof.
  revert t1 t2 d. induction s1 as [|[] s1 IH]; intros t1 t2 d; [done| |]; simpl.
  - destruct (step_thread t1 d) as [t1' d']. apply IH.
  - destruct (step_thread t2 d) as [t2' d']. apply IH.
Qed.

(** A request left alone runs to its answer, the one [run] gives. *)
Lemma thread_runs (m : prog response Empty_set) sc k d :
  exists n sc',
    run m (World d sc) = ((run m (World d sc)).1, World (run m (World d sc)).2.(dev) sc') /\
    forall other,
      interleave (turns First n) (Thread m sc k) other d
        = (Thread (Fin (run m (World d sc)).1) sc' (k + n), other,
           (run m (World d sc)).2.(dev)) /\
      interleave (turns Second n) other (Thread m sc k) d
        = (other, Thread (Fin (run m (World d sc)).1) sc' (k + n),
           (run m (World d sc)).2.(dev)).
Proof.
  revert sc k d. induction m as [o|B act cont IH]; intros sc k d.
  { exists 0, sc. simpl. rewrite Nat.add_0_r. done. }
  simpl. destruct (act (World d sc)) as [b [d1 sc1]] eqn:Ea.
  destruct (IH b sc1 (S k) d1) as (n & sc' & Hrun & Hturns).
  exists (S n), sc'. split; [done|]. intros other.
  destruct (Hturns other) as [H1 H2].
  simpl. unfold step_thread. simpl. rewrite Ea. simpl.
  rewrite H1, H2. by rewrite Nat.add_succ_r.
Qed.

(** ** Properties of the update engine *)

Section Properties.
Context {HL : Hashlib} {CR : Cryptography} {ZF : Zipfile} {SD : Systemd}.

Lemma transaction_rejected c d :
  integrity c = false \/ authenticity d c = false ->
  transaction c d = (SHA256_hash_mismatch, d).
Proof.
  intros Hfail. unfold transaction.
  destruct (integrity c); cbn [negb]; [|done].
  by destruct Hfail as [? | ->].
Qed.

Lemma transaction_verified c d :
  integrity c = true ->
  authenticity d c = true ->
  transaction c d =
  if (probe (installed c d)).1
  then (Update_successful, committed c (probe (installed c d)).2)
  else (Rollback_done, rolled_back (probe (installed c d)).2).
Proof.
  intros Hi Ha. unfold transaction. rewrite Hi, Ha. cbn [negb].
  by destruct (probe (installed c d)) as [[] dp].
Qed.





(** C5. The signature verification always returns a boolean and raises
    nothing, whatever the three paths hold, and it changes nothing; it
    returns true exactly when the three files can be read, the key parses,
    and either the key is an RSA key and the PKCS#1 v1.5 / SHA-256
    verification passes or it is an Ed25519 key and its verification passes.
    So a key of any other kind, an unreadable file and any exception raised
    on the way all give false. Its answer is that of [verify], the contract
    in the words of the specification. *)
Theorem validate_signature_returns_boolean {R} w file_path sig_path key_path :
  exists b : bool,
    run (R:=R) (validate_signature file_path sig_path key_path) w = (Next b, w) /\
    (b = true <->
     exists key data sg,
       lookup_file w key_path = Some key /\
       lookup_file w file_path = Some data /\
       lookup_file w sig_path = Some sg /\
       ((exists k, load_pem_public_key (content key) = inr (RSAPublicKey k) /\
                   rsa_verify k (content sg) (content data) PKCS1v15 SHA256 = None) \/
        (exists k, load_pem_public_key (content key) = inr (Ed25519PublicKey k) /\
                   ed25519_verify k (content sg) (content data) = None))) /\
    (forall key data sg,
       lookup_file w key_path = Some key ->
       lookup_file w file_path = Some data ->
       lookup_file w sig_path = Some sg ->
       b = verify (content key) (content data) (content sg)) /\
    (forall key k, lookup_file w key_path = Some key ->
       load_pem_public_key (content key) = inr (OtherPublicKey k) -> b = false) /\
    (forall key e, lookup_file w key_path = Some key ->
       load_pem_public_key (content key) = inl e -> b = false) /\
    (lookup_file w key_path = None \/ lookup_file w file_path = None \/
     lookup_file w sig_path = None -> b = false).
Proof.
  exists (signature_checks w file_path sig_path key_path).
  split; [apply run_validate_signature|].
  unfold signature_checks, verify. split_and!.
  - split.
    + destruct (lookup_file w key_path) as [key|]; [|done].
      destruct (lookup_file w file_path) as [data|]; [|done].
      destruct (lookup_file w sig_path) as [sg|]; [|done].
      destruct (load_pem_public_key (content key)) as [e|[k|k|k]] eqn:El; [done| | |done].
      * destruct (rsa_verify k (content sg) (content data) PKCS1v15 SHA256) eqn:Ev;
          [done|]. intros _. exists key, data, sg. rewrite El. eauto 10.
      * destruct (ed25519_verify k (content sg) (content data)) eqn:Ev;
          [done|]. intros _. exists key, data, sg. rewrite El. eauto 10.
    + by intros (key & data & sg & -> & -> & -> & [(k & -> & ->)|(k & -> & ->)]).
  - by intros key data sg -> -> ->.
  - intros key k -> ->. by destruct (lookup_file w file_path), (lookup_file w sig_path).
  - intros key e -> ->. by destruct (lookup_file w file_path), (lookup_file w sig_path).
  - intros [-> | [-> | ->]]; [done| |].
    + by destruct (lookup_file w key_path).
    + by destruct (lookup_file w key_path), (lookup_file w file_path).
Qed.

Lemma recorded_pair_at_the_end request d :
  exists o d' js,
    run_on d (upload_ota request) = (o, d') /\
    journal d' = journal d ++ js /\
    (o <> Returned Update_successful /\
     leaves_record js /\
     files d' !! HASH_PATH = files d !! HASH_PATH /\
     files d' !! VERSION_PATH = files d !! VERSION_PATH
     \/
     o = Returned Update_successful /\
     exists c before,
       candidate request d = Some c /\
       (probe (installed c d)).1 = true /\
       js = before ++ [SystemctlIsActive 0; Wrote HASH_PATH; Wrote VERSION_PATH] /\
       leaves_record before /\
       files d' !! HASH_PATH = Some (digest_file c) /\
       files d' !! VERSION_PATH = Some (version_file c) /\
       run_on d' get_version
         = (Returned {| version := Some (strip (decode (content (version_file c))));
                        hash := Some (sha256sum_of (content (binary c))) |}, d')) /\
    (forall c, candidate request d = Some c ->
       integrity c = true -> authenticity d c = true ->
       (probe (installed c d)).1 = true -> o = Returned Update_successful).
Proof.
  destruct (candidate request d) as [c|] eqn:Hc; cycle 1.
  { exists (rejection request d), d, []. rewrite app_nil_r.
    split; [by apply run_upload_ota_rejected|]. split; [done|]. split; [|done].
    left. split; [|by repeat constructor].
    unfold rejection. repeat case_match; done. }
  rewrite (run_upload_ota _ _ _ Hc).
  destruct (integrity c) eqn:Hi; cycle 1.
  { exists (Returned SHA256_hash_mismatch), d, []. rewrite app_nil_r.
    rewrite transaction_rejected by by left.
    split; [done|]. split; [done|]. split; [|intros c0 [= <-]; congruence].
    left. split; [done|]. by repeat constructor. }
  destruct (authenticity d c) eqn:Ha; cycle 1.
  { exists (Returned SHA256_hash_mismatch), d, []. rewrite app_nil_r.
    rewrite transaction_rejected by by right.
    split; [done|]. split; [done|]. split; [|intros c0 [= <-]; congruence].
    left. split; [done|]. by repeat constructor. }
  rewrite (transaction_verified _ _ Hi Ha).
  pose proof (probe_frame (installed c d)) as [Hf _].
  pose proof (probe_journal (installed c d)) as (jp & rc & Hj & Hrc & Hlp).
  destruct (installed_journal c d) as (_ & ji & Hji & Hli).
  set (dp := (probe (installed c d)).2) in *.
  destruct (probe (installed c d)).1 eqn:Hp.
  - symmetry in Hrc. apply Z.eqb_eq in Hrc. subst rc.
    eexists _, _, (([SystemctlStop] ++ ji
       ++ [Wrote APP_PATH; Chmod APP_PATH (executable_mode (binary c)); SystemctlStart]
       ++ jp) ++ [SystemctlIsActive 0; Wrote HASH_PATH; Wrote VERSION_PATH]).
    split; [reflexivity|]. split.
    { unfold committed, write. cbn [logged with_files journal].
      rewrite Hj, Hji. by rewrite <- !app_assoc. }
    split; [|done]. right. split; [done|]. eexists c, _.
    split; [done|]. split; [done|]. split; [reflexivity|].
    split.
    { unfold leaves_record in *. rewrite !Forall_app. repeat split; try done.
      all: by repeat constructor. }
    assert (Hh : files (committed c dp) !! HASH_PATH = Some (digest_file c)).
    { unfold committed, write. cbn [logged with_files files].
      by rewrite lookup_insert_ne, lookup_insert_eq. }
    assert (Hv : files (committed c dp) !! VERSION_PATH = Some (version_file c)).
    { unfold committed, write. cbn [logged with_files files].
      by rewrite lookup_insert_eq. }
    split_and!; [done..|].
    rewrite run_get_version. unfold recorded. rewrite Hh, Hv.
    unfold integrity in Hi. by apply String.eqb_eq in Hi as ->.
  - destruct (restored_journal dp) as (_ & Hjr).
    eexists _, _, ([SystemctlStop] ++ ji
       ++ [Wrote APP_PATH; Chmod APP_PATH (executable_mode (binary c)); SystemctlStart]
       ++ jp ++ [SystemctlIsActive rc]
       ++ (if present (files dp !! BACKUP_PATH) then [Wrote APP_PATH] else [])
       ++ [SystemctlStart]).
    split; [reflexivity|]. split.
    { unfold rolled_back. cbn [logged journal].
      rewrite Hjr, Hj, Hji. by rewrite <- !app_assoc. }
    split; [|intros c0 [= <-]; congruence]. left. split; [done|]. split.
    { unfold leaves_record in *. rewrite !Forall_app. repeat split; try done.
      all: try by repeat constructor.
      destruct (present (files dp !! BACKUP_PATH)); by repeat constructor. }
    unfold rolled_back. cbn [logged files].
    rewrite !restored_files, Hf, !installed_files. by repeat case_decide.
Qed.



(** C3, as the code has it. The health probe is the loop of lines 143-148
    followed by the check of line 150. The loop makes at most 10 checks,
    sleeps one second after each check that reports the service active, and
    ends at the first check that reports it not active; then one more check
    is made and its answer is the answer of the probe. So the probe makes at
    most 11 checks; it answers healthy when every check reports the service
    active (11 checks, 10 seconds of sleep); a check that reports not active
    ends the watching at once (when it is the first, two checks are made and
    nothing is slept); and the probe changes no file. *)
Theorem health_probe_watches_then_decides {R} w :
  run (R:=R) (watch_service;; is_kaonic_running) w
    = (Next (probe (dev w)).1, World (probe (dev w)).2 (tmp w)) /\
  files (probe (dev w)).2 = files (dev w) /\
  (exists k js,
     k <= 10 /\
     journal (probe (dev w)).2
       = journal (dev w) ++ active_turns k ++ js
         ++ [SystemctlIsActive (systemctl_is_active (watched 10 (dev w)))] /\
     (k = 10 /\ js = [] \/
      k < 10 /\ exists rc, rc <> 0%Z /\ js = [SystemctlIsActive rc] /\
                exists d', rc = systemctl_is_active d') /\
     (probe (dev w)).1 = (systemctl_is_active (watched 10 (dev w)) =? 0)%Z) /\
  ((forall d, systemctl_is_active d = 0%Z) ->
     (probe (dev w)).1 = true /\
     journal (probe (dev w)).2
       = journal (dev w) ++ active_turns 10 ++ [SystemctlIsActive 0]) /\
  (systemctl_is_active (dev w) <> 0%Z ->
     exists rc1 rc2,
       rc1 <> 0%Z /\
       journal (probe (dev w)).2
         = journal (dev w) ++ [SystemctlIsActive rc1; SystemctlIsActive rc2] /\
       (probe (dev w)).1 = (rc2 =? 0)%Z).
Proof.
  split_and!.
  - rewrite run_bind, run_watch_service. by destruct w.
  - apply probe_frame.
  - unfold probe. cbn [fst snd logged journal].
    destruct (watched_journal 10 (dev w)) as (k & js & Hk & -> & Hend).
    exists k, js. by rewrite <- !app_assoc.
  - intros Hall. unfold probe. cbn [fst snd logged journal].
    split; [by apply Z.eqb_eq|].
    destruct (watched_journal 10 (dev w)) as (k & js & Hk & -> & Hend).
    rewrite Hall.
    destruct Hend as [[-> ->]|[_ (rc & Hrc & -> & d' & ->)]].
    + by rewrite <- !app_assoc.
    + by rewrite Hall in Hrc.
  - intros Hfirst. unfold probe. cbn [fst snd logged journal].
    rewrite (watched_stops 9 _ Hfirst).
    exists (systemctl_is_active (dev w)),
           (systemctl_is_active (logged (SystemctlIsActive (systemctl_is_active (dev w)))
                                        (dev w))).
    split; [done|]. cbn [logged journal]. by rewrite <- !app_assoc.
Qed.


End Properties.

(** ** The properties at work in the laboratory *)

Module Trials.
Import Lab.





(** The checksum of the laboratory keeps hashlib's contract. *)
Lemma digest_trial :
  sha256sum_of build_1 = sha256_hex build_1 /\
  get_file_hash_of build_1 = sha256_hex build_1 /\
  sha256sum_of build_1 = get_file_hash_of build_1 /\
  (forall size, (0 < size)%N ->
     hexdigest (read_chunks size sha256 build_1) = sha256_hex build_1) /\
  (forall R w p f, lookup_file w p = Some f -> content f = build_1 ->
     run (R:=R) (sha256sum p) w = (Next (sha256_hex build_1), w)) /\
  (forall host filepath, host !! filepath = Some build_1 ->
     get_file_hash host filepath = Some (sha256_hex build_1)).
Proof.
  apply (digest_independent_of_chunking (HL:=hashlib) build_1).
  split.
  - intros h. apply app_nil_r.
  - intros h a b. symmetry. apply app_assoc.
Defined.

(** A digest over three bytes read one byte at a time. *)
Lemma digest_trial_small_chunks :
  hexdigest (read_chunks 1 sha256 (text "abc")) = "26".
Proof. vm_compute. reflexivity. Qed.

(** C3 as the specification words it fails on the code: the first check
    reports the service active, and the probe of the specification answers
    healthy at once; the code goes on watching, meets a check that reports
    the service not active, and rolls the upload back. *)
Lemma first_active_check_does_not_decide :
  let d := installed good_candidate committed_device in
  systemctl_is_active (Systemd:=active_once) d = 0%Z /\
  (probeHealthy (SD:=active_once) 10 1 d).1 = true /\
  (probe (SD:=active_once) d).1 = false /\
  journal (probe (SD:=active_once) d).2
    = journal d ++ [SystemctlIsActive 0; Sleep 1; SystemctlIsActive 3; SystemctlIsActive 3] /\
  (run_on committed_device (upload_ota (SD:=active_once) good_upload)).1
    = Returned Rollback_done.
Proof. vm_compute. repeat split; reflexivity. Qed.


(** A service that is always active: eleven checks, ten seconds. *)
Lemma health_probe_trial :
  (probe (SD:=always_active) committed_device).1 = true /\
  journal (probe (SD:=always_active) committed_device).2
    = journal committed_device ++ active_turns 10 ++ [SystemctlIsActive 0].
Proof.
  destruct (health_probe_watches_then_decides (SD:=always_active) (R:=unit)
              (World committed_device ∅)) as (_ & _ & _ & Hall & _).
  apply Hall. intros d. reflexivity.
Defined.


(** A good RSA signature is accepted. *)
Lemma validate_signature_trial :
  exists b : bool,
    run (R:=unit)
        (validate_signature (InTmp "kaonic-commd") (InTmp "kaonic-commd.sig")
                            (Abs VERIFY_KEY_PATH))
        (World committed_device
               (<["kaonic-commd" := binary good_candidate]>
                (<["kaonic-commd.sig" := signature_file good_candidate]> ∅)))
    = (Next b,
       World committed_device
             (<["kaonic-commd" := binary good_candidate]>
              (<["kaonic-commd.sig" := signature_file good_candidate]> ∅))) /\
    b = true.
Proof.
  destruct (validate_signature_returns_boolean (R:=unit)
              (World committed_device
                 (<["kaonic-commd" := binary good_candidate]>
                  (<["kaonic-commd.sig" := signature_file good_candidate]> ∅)))
              (InTmp "kaonic-commd") (InTmp "kaonic-commd.sig") (Abs VERIFY_KEY_PATH))
    as (b & Hrun & _ & Hverify & _).
  exists b. split; [exact Hrun|].
  apply (Hverify key_file (binary good_candidate) (signature_file good_candidate));
    vm_compute; reflexivity.
Defined.




End Trials.

(** * Further properties of the agent *)

(** ** Backup and restore *)

Section Housekeeping.
Context {HL : Hashlib} {CR : Cryptography} {ZF : Zipfile} {SD : Systemd}.


(** X2. Taking the backup twice, or restoring twice, leaves the files that
    doing it once leaves; and a restore made right after a backup changes no
    file. In each case the Active Binary of the beginning is still the
    Active Binary. *)
Theorem backup_and_restore_are_idempotent {R} w :
  files (dev (run (R:=R) (backup_current;; backup_current) w).2)
    = files (dev (run (R:=R) backup_current w).2) /\
  files (dev (run (R:=R) (restore_backup;; restore_backup) w).2)
    = files (dev (run (R:=R) restore_backup w).2) /\
  files (dev (run (R:=R) (backup_current;; restore_backup) w).2)
    = files (dev (run (R:=R) backup_current w).2) /\
  files (dev (run (R:=R) (backup_current;; restore_backup) w).2) !! APP_PATH
    = files (dev w) !! APP_PATH.
Proof.
  rewrite !run_bind, !run_backup_current, !run_restore_backup.
  cbn [and_then]. rewrite !run_backup_current, !run_restore_backup. cbn [snd dev].
  split_and!.
  - apply map_eq. intros q. rewrite !backed_up_files. by repeat case_decide.
  - apply map_eq. intros q. rewrite !restored_files.
    repeat case_decide; try done. by destruct (files (dev w) !! BACKUP_PATH).
  - apply map_eq. intros q. rewrite restored_files, !backed_up_files.
    repeat case_decide; try done; subst;
      by destruct (files (dev w) !! APP_PATH).
  - rewrite restored_files, !backed_up_files.
    repeat case_decide; try done;
      by destruct (files (dev w) !! APP_PATH).
Qed.

End Housekeeping.

(** ** A successful update *)

Lemma testbit_executable_mode f i :
  N.testbit (executable_mode f) i
  = N.testbit (st_mode f) i || (i =? 6)%N || (i =? 3)%N || (i =? 0)%N.
Proof.
  unfold executable_mode, S_IXUSR, S_IXGRP, S_IXOTH.
  rewrite !N.lor_spec.
  change 64%N with (2 ^ 6)%N. change 8%N with (2 ^ 3)%N. change 1%N with (2 ^ 0)%N.
  rewrite !N.pow2_bits_eqb.
  by rewrite (N.eqb_sym 6), (N.eqb_sym 3), (N.eqb_sym 0).
Qed.

Section Update.
Context {HL : Hashlib} {CR : Cryptography} {ZF : Zipfile} {SD : Systemd}.



End Update.

(** ** Starting the agent again *)

Lemma journal_grown (js more : list event) : more <> [] -> js ++ more <> js.
Proof.
  intros Hne Heq. apply (f_equal length) in Heq. rewrite length_app in Heq.
  destruct more; [done|]. simpl in Heq. lia.
Qed.

Section Restart.
Context {HL : Hashlib}.

Lemma reconciled_with_metadata d :
  METADATA_PATH ∈ dirs d ->
  reconciled d =
  if negb (present (files d !! APP_PATH)) && negb (present (files d !! BACKUP_PATH))
     || trusted d
  then d else logged SystemctlStart (restored (logged SystemctlStop d)).
Proof.
  intros Hm. unfold reconciled. rewrite bool_decide_eq_true_2 by done. cbn [negb].
  by destruct (negb (present (files d !! APP_PATH))
               && negb (present (files d !! BACKUP_PATH))).
Qed.


End Restart.

(** ** Text files and white space *)

Lemma decode_app (a b : bytes) : decode (a ++ b) = (decode a ++ decode b)%string.
Proof.
  unfold decode, string_of_list_byte.
  induction a as [|x a IH]; [done|]. simpl. by rewrite IH.
Qed.

Lemma decode_cons (x : Byte.byte) (a : bytes) :
  decode (x :: a) = String (ascii_of_byte x) (decode a).
Proof. done. Qed.

Lemma lstrip_spaces (pre : bytes) (s : string) :
  Forall (fun b => space_byte b = true) pre ->
  lstrip (decode pre ++ s) = lstrip s.
Proof.
  induction 1 as [|b pre Hb _ IH]; [done|].
  rewrite decode_cons. simpl. unfold space_byte in Hb. by rewrite Hb.
Qed.

Lemma lstrip_only_spaces (post : bytes) :
  Forall (fun b => space_byte b = true) post -> lstrip (decode post) = "".
Proof.
  induction 1 as [|b post Hb _ IH]; [done|].
  rewrite decode_cons. simpl. unfold space_byte in Hb. by rewrite Hb.
Qed.

Lemma rstrip_spaces (post : bytes) :
  Forall (fun b => space_byte b = true) post -> rstrip (decode post) = "".
Proof.
  induction 1 as [|b post Hb _ IH]; [done|].
  rewrite decode_cons. simpl. unfold space_byte in Hb. by rewrite IH, Hb.
Qed.

Lemma rstrip_app_spaces (s : string) (post : bytes) :
  Forall (fun b => space_byte b = true) post ->
  rstrip (s ++ decode post) = rstrip s.
Proof.
  intros Hpost. induction s as [|c s IH]; [by apply rstrip_spaces|].
  simpl. by rewrite IH.
Qed.

Lemma strip_app_spaces (s : string) (post : bytes) :
  Forall (fun b => space_byte b = true) post ->
  strip (s ++ decode post) = strip s.
Proof.
  intros Hpost. unfold strip. induction s as [|c s IH].
  - change ("" +:+ decode post)%string with (decode post).
    by rewrite lstrip_only_spaces.
  - change (String c s +:+ decode post)%string with (String c (s +:+ decode post)).
    cbn [lstrip]. destruct (isspace c); [done|].
    by apply (rstrip_app_spaces (String c s)).
Qed.

Lemma strip_padded (pre b post : bytes) :
  Forall (fun x => space_byte x = true) pre ->
  Forall (fun x => space_byte x = true) post ->
  strip (decode (pre ++ b ++ post)) = strip (decode b).
Proof.
  intros Hpre Hpost. rewrite !decode_app.
  unfold strip at 1. rewrite lstrip_spaces by done.
  by apply strip_app_spaces.
Qed.

Section WhiteSpace.
Context {HL : Hashlib} {CR : Cryptography} {ZF : Zipfile} {SD : Systemd}.



End WhiteSpace.

(** ** What is checked before the verification gate *)

Section BeforeTheGate.
Context {HL : Hashlib} {CR : Cryptography} {ZF : Zipfile} {SD : Systemd}.

Lemma candidate_None_of_upload request d upload :
  request_files request !! "file" = Some upload ->
  content_type upload <> "application/x-zip-compressed" ->
  candidate request d = None.
Proof.
  intros Hu Hct. unfold candidate. rewrite Hu. cbn [mbind option_bind].
  by apply String.eqb_neq in Hct as ->.
Qed.

(** X8. The request is checked before anything is touched, in this order:
    a request without a part named [file] is answered 400, No file uploaded;
    an upload whose content type is not exactly application/x-zip-compressed
    is answered 400, Only ZIP files accepted, whatever it holds and whether
    or not the device has the trusted key; a ZIP upload on a device without
    the trusted key is answered 500, OTA certificate is not present. In all
    three cases the device is left exactly as it was. *)
Theorem request_is_checked_before_anything_is_touched request d :
  (request_files request !! "file" = None ->
     run_on d (upload_ota request) = (Returned (jsonify "No file uploaded" 400), d)) /\
  (forall upload,
     request_files request !! "file" = Some upload ->
     content_type upload <> "application/x-zip-compressed" ->
     run_on d (upload_ota request)
     = (Returned (jsonify "Only ZIP files accepted" 400), d)) /\
  (forall upload,
     request_files request !! "file" = Some upload ->
     content_type upload = "application/x-zip-compressed" ->
     files d !! VERIFY_KEY_PATH = None ->
     run_on d (upload_ota request)
     = (Returned (jsonify "OTA certificate is not present" 500), d)).
Proof.
  split_and!.
  - intros Hu. rewrite run_upload_ota_rejected.
    + unfold rejection. by rewrite Hu.
    + unfold candidate. by rewrite Hu.
  - intros upload Hu Hct.
    rewrite run_upload_ota_rejected by by eapply candidate_None_of_upload.
    unfold rejection. rewrite Hu. by apply String.eqb_neq in Hct as ->.
  - intros upload Hu Hct Hk. rewrite run_upload_ota_rejected.
    + unfold rejection. rewrite Hu, Hct, String.eqb_refl, Hk. done.
    + unfold candidate. rewrite Hu. cbn [mbind option_bind].
      by rewrite Hct, String.eqb_refl, Hk.
Qed.

Lemma find_first {A} (P : A -> bool) (before : list A) (x : A) (after : list A) :
  Forall (fun y => P y = false) before -> P x = true ->
  find P (before ++ x :: after) = Some x.
Proof.
  induction 1 as [|y before Hy _ IH]; intros Hx; simpl.
  - by rewrite Hx.
  - rewrite Hy. by apply IH.
Qed.

Lemma candidate_None_of_missing request d upload members name :
  request_files request !! "file" = Some upload ->
  extractall (stream upload) = inr members ->
  name ∈ required_files ->
  unpack upload members !! name = None ->
  candidate request d = None.
Proof.
  intros Hu Hx Hin Hname. unfold candidate. rewrite Hu. cbn [mbind option_bind].
  destruct (negb (content_type upload =? "application/x-zip-compressed")); [done|].
  destruct (negb (present (files d !! VERIFY_KEY_PATH))); [done|].
  rewrite Hx. unfold required_files in Hin.
  rewrite !elem_of_cons in Hin.
  destruct Hin as [-> | [-> | [-> | [-> | Hin]]]]; [..|by apply elem_of_nil in Hin];
    rewrite Hname;
    repeat (match goal with |- context [unpack upload members !! ?x] =>
              destruct (unpack upload members !! x) end; cbn [mbind option_bind]);
    done.
Qed.

(** X9. The archive is checked before the gate. For a ZIP upload on a
    device that has the trusted key: an archive that [zipfile] refuses as a
    bad ZIP file is answered 400, Invalid ZIP file; any other exception of
    the extraction is not caught and ends the request; an archive that
    extracts but lacks one of the four required files is answered 400 with
    the name of the first one missing, in the order binary, digest, version,
    signature. In each case the device is left exactly as it was. *)
Theorem archive_is_checked_before_the_gate request d upload key :
  request_files request !! "file" = Some upload ->
  content_type upload = "application/x-zip-compressed" ->
  files d !! VERIFY_KEY_PATH = Some key ->
  (extractall (stream upload) = inl BadZipFile ->
     run_on d (upload_ota request) = (Returned (jsonify "Invalid ZIP file" 400), d)) /\
  (forall e, extractall (stream upload) = inl e -> e <> BadZipFile ->
     run_on d (upload_ota request) = (Raised e, d)) /\
  (forall members before name after,
     extractall (stream upload) = inr members ->
     required_files = before ++ name :: after ->
     Forall (fun x => is_Some (unpack upload members !! x)) before ->
     unpack upload members !! name = None ->
     run_on d (upload_ota request)
     = (Returned (jsonify ("Missing " ++ name ++ " in OTA package") 400), d)).
Proof.
  intros Hu Hct Hk.
  assert (Hrej : forall e, extractall (stream upload) = inl e -> candidate request d = None).
  { intros e He. unfold candidate. rewrite Hu. cbn [mbind option_bind].
    by rewrite Hct, String.eqb_refl, Hk, He. }
  split_and!.
  - intros He. rewrite run_upload_ota_rejected by by eapply Hrej.
    unfold rejection. by rewrite Hu, Hct, String.eqb_refl, Hk, He.
  - intros e He Hne. rewrite run_upload_ota_rejected by by eapply Hrej.
    unfold rejection. rewrite Hu, Hct, String.eqb_refl, Hk, He. by destruct e.
  - intros members before name after Hx Hreq Hbefore Hname.
    rewrite run_upload_ota_rejected.
    + unfold rejection. rewrite Hu, Hct, String.eqb_refl, Hk, Hx. cbn [negb present].
      rewrite Hreq, (find_first _ before name after); [done| |by rewrite Hname].
      eapply Forall_impl; [exact Hbefore|]. by intros x [f ->].
    + eapply candidate_None_of_missing; [done..| |done].
      rewrite Hreq. apply elem_of_app. right. by left.
Qed.


End BeforeTheGate.

(** ** The supervisor *)

Lemma supervisor_commands_app js1 js2 :
  supervisor_commands (js1 ++ js2) = supervisor_commands js1 ++ supervisor_commands js2.
Proof.
  induction js1 as [|e js1 IH]; [done|]. destruct e; simpl; by rewrite ?IH.
Qed.

Lemma supervisor_commands_active_turns k : supervisor_commands (active_turns k) = [].
Proof. by induction k. Qed.

Lemma backed_up_commands d :
  exists js, journal (backed_up d) = journal d ++ js /\ supervisor_commands js = [].
Proof.
  destruct d as [fs ds js]. unfold backed_up. simpl.
  destruct (fs !! BACKUP_PATH) as [b|]; simpl.
  - rewrite lookup_delete_ne by done.
    destruct (fs !! APP_PATH) as [a|]; simpl.
    + exists [Unlinked BACKUP_PATH; Wrote BACKUP_PATH]. by rewrite <- app_assoc.
    + by exists [Unlinked BACKUP_PATH].
  - destruct (fs !! APP_PATH) as [a|]; simpl.
    + by exists [Wrote BACKUP_PATH].
    + exists []. by rewrite app_nil_r.
Qed.

Section Supervisor.
Context {HL : Hashlib} {CR : Cryptography} {ZF : Zipfile} {SD : Systemd}.

Lemma probe_commands d :
  exists js, journal (probe d).2 = journal d ++ js /\ supervisor_commands js = [].
Proof.
  unfold probe. cbn [snd logged journal].
  destruct (watched_journal 10 d) as (k & js & _ & -> & Hend).
  exists (active_turns k ++ js ++ [SystemctlIsActive (systemctl_is_active (watched 10 d))]).
  split; [by rewrite <- !app_assoc|].
  rewrite !supervisor_commands_app, supervisor_commands_active_turns.
  by destruct Hend as [[_ ->]|[_ (rc & _ & -> & _)]].
Qed.

Lemma installed_commands c d :
  exists js, journal (installed c d) = journal d ++ js /\
             supervisor_commands js = [SystemctlStop; SystemctlStart].
Proof.
  unfold installed, set_mode, write, logged, with_files. simpl.
  destruct (backed_up_commands (Device (files d) (dirs d) (journal d ++ [SystemctlStop])))
    as (js & -> & Hjs). simpl.
  exists ([SystemctlStop] ++ js
          ++ [Wrote APP_PATH; Chmod APP_PATH (executable_mode (binary c)); SystemctlStart]).
  split; [by rewrite <- !app_assoc|].
  rewrite !supervisor_commands_app, Hjs. done.
Qed.


End Supervisor.

(** ** Every moment of a block *)

Lemma steps_Fin {R A} n (o : outcome R A) w : steps n (Fin o) w = (Fin o, w).
Proof. induction n as [|n IH]; [done|]. simpl. apply IH. Qed.

Lemma during_Fin {R A} (P : device -> Prop) (o : outcome R A) w :
  P (dev w) -> during P (Fin o) w.
Proof. intros HP n. by rewrite steps_Fin. Qed.

Lemma during_Act {R A B} (P : device -> Prop) (act : world -> B * world)
    (k : B -> prog R A) w :
  during P (Act act k) w <-> P (dev w) /\ during P (k (act w).1) (act w).2.
Proof.
  split.
  - intros H. split; [apply (H 0)|]. intros n. specialize (H (S n)).
    simpl in H. by destruct (act w).
  - intros [H0 H] [|n]; [done|]. simpl. specialize (H n). by destruct (act w).
Qed.

Lemma during_now {R A} (P : device -> Prop) (m : prog R A) w :
  during P m w -> P (dev w).
Proof. intros H. apply (H 0). Qed.

Lemma during_end {R A} (P : device -> Prop) (m : prog R A) w :
  during P m w -> P (dev (run m w).2).
Proof.
  revert w. induction m as [o|B act k IH]; intros w H; [apply (H 0)|].
  apply during_Act in H as [_ H]. simpl. destruct (act w) as [b w']. by apply IH.
Qed.

Lemma during_impl {R A} (P Q : device -> Prop) (m : prog R A) w :
  (forall d, P d -> Q d) -> during P m w -> during Q m w.
Proof. intros HPQ H n. apply HPQ, H. Qed.

Lemma during_bind {R A B} (P : device -> Prop) (m : prog R A) (f : A -> prog R B) w :
  during P m w ->
  (forall a w', run m w = (Next a, w') -> during P (f a) w') ->
  during P (m ≫= f) w.
Proof.
  revert w. induction m as [[a|r|e]|C act k IH]; intros w Hm Hf.
  - by apply Hf.
  - apply during_Fin, (Hm 0).
  - apply during_Fin, (Hm 0).
  - apply during_Act in Hm as [H0 Hm].
    change (during P (Act act (fun b => k b ≫= f)) w).
    apply during_Act. split; [done|]. apply IH; [done|].
    intros a w' Hrun. apply Hf. simpl. by destruct (act w).
Qed.

Lemma during_try_except {R A} (P : device -> Prop) (m : prog R A)
    (h : exn -> prog R A) w :
  during P m w ->
  (forall e w', run m w = (Raised e, w') -> during P (h e) w') ->
  during P (try_except m h) w.
Proof.
  revert w. induction m as [[a|r|e]|C act k IH]; intros w Hm Hh.
  - apply during_Fin, (Hm 0).
  - apply during_Fin, (Hm 0).
  - by apply Hh.
  - apply during_Act in Hm as [H0 Hm]. simpl.
    apply during_Act. split; [done|]. apply IH; [done|].
    intros e w' Hrun. apply Hh. simpl. by destruct (act w).
Qed.

Lemma during_finally {R A} (P : device -> Prop) (m : prog R A)
    (cleanup : world -> world) w :
  (forall w', dev (cleanup w') = dev w') ->
  during P m w ->
  during P (finally m cleanup) w.
Proof.
  intros Hc. revert w. induction m as [o|B act k IH]; intros w Hm.
  - simpl. apply during_Act. split; [apply (Hm 0)|].
    apply during_Fin. cbn [fst snd]. rewrite Hc. apply (Hm 0).
  - apply during_Act in Hm as [H0 Hm]. simpl.
    apply during_Act. split; [done|]. by apply IH.
Qed.

Lemma silent_bind {R A B} (m : prog R A) (f : A -> prog R B) :
  silent m -> (forall a, silent (f a)) -> silent (m ≫= f).
Proof.
  intros Hm Hf. induction m as [[a|r|e]|C act k IH]; try done.
  - apply Hf.
  - destruct Hm as [Hact Hk]. split; [done|]. intros b. by apply IH.
Qed.

Lemma silent_fmap {R A B} (g : A -> B) (m : prog R A) : silent m -> silent (g <$> m).
Proof. intros Hm. by apply (silent_bind m (fun a => Fin (Next (g a)))). Qed.

Lemma silent_try_except {R A} (m : prog R A) (h : exn -> prog R A) :
  silent m -> (forall e, silent (h e)) -> silent (try_except m h).
Proof.
  intros Hm Hh. induction m as [[a|r|e]|C act k IH]; try done.
  - apply Hh.
  - destruct Hm as [Hact Hk]. split; [done|]. intros b. by apply IH.
Qed.

Lemma silent_call_function {R R'} (body : prog R Empty_set) :
  silent body -> silent (call_function (R':=R') body).
Proof.
  intros Hm. induction body as [[[]|r|e]|C act k IH]; try done.
  destruct Hm as [Hact Hk]. split; [done|]. intros b. by apply IH.
Qed.

Lemma silent_ask {R A} (f : world -> A) : silent (R:=R) (ask f).
Proof. by split. Qed.

Lemma silent_for_each {R A} (l : list A) (body : A -> prog R unit) :
  (forall x, silent (body x)) -> silent (for_each l body).
Proof.
  intros Hb. induction l as [|x l IH]; [done|].
  change (silent (body x;; for_each l body)). by apply silent_bind.
Qed.

Lemma silent_during {R A} (P : device -> Prop) (m : prog R A) w :
  silent m -> P (dev w) -> during P m w.
Proof.
  revert w. induction m as [o|B act k IH]; intros w Hm HP.
  - by apply during_Fin.
  - destruct Hm as [Hact Hk]. apply during_Act. split; [done|].
    apply IH; [done|]. by rewrite Hact.
Qed.

Lemma silent_run {R A} (m : prog R A) w : silent m -> dev (run m w).2 = dev w.
Proof.
  revert w. induction m as [o|B act k IH]; intros w Hm; [done|].
  destruct Hm as [Hact Hk]. simpl. specialize (Hact w).
  destruct (act w) as [b w']. rewrite IH by done. done.
Qed.

(** A block that leaves the device alone, followed by the rest. *)
Lemma during_after_silent {R A B} (P : device -> Prop) (m : prog R A)
    (f : A -> prog R B) w :
  silent m -> P (dev w) ->
  (forall a w', run m w = (Next a, w') -> dev w' = dev w -> during P (f a) w') ->
  during P (m ≫= f) w.
Proof.
  intros Hm HP Hf. apply during_bind; [by apply silent_during|].
  intros a w' Hrun. apply Hf; [done|].
  pose proof (silent_run m w Hm) as Hd. by rewrite Hrun in Hd.
Qed.

(** ** An update interrupted *)

Lemma backed_up_dirs d : dirs (backed_up d) = dirs d.
Proof. apply backed_up_journal. Qed.

Lemma restored_dirs d : dirs (restored d) = dirs d.
Proof. apply restored_journal. Qed.

Section Interrupted.
Context {HL : Hashlib} {CR : Cryptography} {ZF : Zipfile} {SD : Systemd}.

Lemma mid_update_recovered G h c d :
  strip (decode (content h)) = sha256sum_of (content G) ->
  integrity c = true ->
  mid_update G h c d ->
  exists a, files (reconciled d) !! APP_PATH = Some a /\
            (content a = content G \/ content a = content (binary c)).
Proof.
  intros Ht Hi [Hm Hstate]. rewrite (reconciled_with_metadata d Hm).
  unfold trusted.
  destruct Hstate as [(a & Ha & Hc & Hh)|(Hb & a & Ha & Hc & Hh)]; rewrite Ha.
  - rewrite Hh, Hc. apply String.eqb_eq in Ht as ->. cbn [present negb andb orb].
    eauto.
  - cbn [present negb andb orb].
    assert (Hcases : forall x : bool,
              exists a', files (if x then d
                                else logged SystemctlStart (restored (logged SystemctlStop d)))
                         !! APP_PATH = Some a' /\
                         (content a' = content G \/ content a' = content (binary c))).
    { intros [|]; [eauto|]. cbn [logged files]. rewrite restored_files.
      cbn [logged files]. rewrite decide_True, Hb by done. eauto. }
    apply Hcases.
Qed.

Lemma mid_update_logged G h c e d : mid_update G h c d -> mid_update G h c (logged e d).
Proof. done. Qed.

Lemma mid_update_same G h c d d' :
  files d' = files d -> dirs d' = dirs d -> mid_update G h c d -> mid_update G h c d'.
Proof. unfold mid_update. by intros -> ->. Qed.

Lemma mid_update_before G h c d a :
  METADATA_PATH ∈ dirs d ->
  files d !! APP_PATH = Some a -> content a = content G ->
  files d !! HASH_PATH = Some h ->
  mid_update G h c d.
Proof. intros. split; [done|]. left. eauto. Qed.

Lemma mid_update_after G h c d a :
  METADATA_PATH ∈ dirs d ->
  files d !! BACKUP_PATH = Some G ->
  files d !! APP_PATH = Some a -> content a = content (binary c) ->
  files d !! HASH_PATH = Some h \/ files d !! HASH_PATH = Some (digest_file c) ->
  mid_update G h c d.
Proof. intros. split; [done|]. right. eauto 10. Qed.

Lemma silent_read_bytes {R} p : silent (R:=R) (read_bytes p).
Proof. split; [done|]. by intros [f|]. Qed.

Lemma silent_validate_signature {R} file_path sig_path key_path :
  silent (R:=R) (validate_signature file_path sig_path key_path).
Proof.
  apply silent_call_function, silent_try_except; [|by intros []].
  apply silent_bind; [apply silent_read_bytes|]. intros key_pem.
  apply silent_bind; [by destruct (load_pem_public_key key_pem)|]. intros pk.
  apply silent_bind; [apply silent_read_bytes|]. intros file_data.
  apply silent_bind; [apply silent_read_bytes|]. intros signature.
  apply silent_bind; [|done].
  destruct pk as [k|k|k]; simpl; [| |done].
  - by destruct (rsa_verify k signature file_data PKCS1v15 SHA256).
  - by destruct (ed25519_verify k signature file_data).
Qed.

Lemma during_backup_current {R} (P : device -> Prop) w :
  P (dev w) ->
  P (if present (files (dev w) !! BACKUP_PATH) then erase BACKUP_PATH (dev w) else dev w) ->
  P (backed_up (dev w)) ->
  during P (backup_current (R:=R)) w.
Proof.
  destruct w as [[fs ds js] t]. unfold backup_current, backed_up. cbn [dev files].
  intros H0 H1 H2.
  apply during_Act; split; [done|]. simpl.
  destruct (fs !! BACKUP_PATH) as [b|] eqn:Eb; simpl in *.
  - apply during_Act; split; [done|]. simpl. rewrite Eb. simpl.
    apply during_Act; split; [done|]. simpl.
    rewrite lookup_delete_ne in * by done.
    destruct (fs !! APP_PATH) as [a|] eqn:Ea; simpl in *.
    + apply during_Act; split; [done|]. simpl.
      rewrite lookup_delete_ne, Ea by done. simpl. by apply during_Fin.
    + by apply during_Fin.
  - apply during_Act; split; [done|]. simpl.
    destruct (fs !! APP_PATH) as [a|] eqn:Ea; simpl in *.
    + apply during_Act; split; [done|]. simpl. rewrite Ea. simpl. by apply during_Fin.
    + by apply during_Fin.
Qed.

Lemma during_restore_backup {R} (P : device -> Prop) w :
  P (dev w) -> P (restored (dev w)) -> during P (restore_backup (R:=R)) w.
Proof.
  destruct w as [[fs ds js] t]. unfold restore_backup, restored. cbn [dev files].
  intros H0 H1.
  apply during_Act; split; [done|]. simpl.
  destruct (fs !! BACKUP_PATH) as [b|] eqn:Eb; simpl in *.
  - apply during_Act; split; [done|]. simpl. rewrite Eb. simpl. by apply during_Fin.
  - by apply during_Fin.
Qed.

Lemma during_watch {R} (P : device -> Prop) n w :
  (forall e d, P d -> P (logged e d)) ->
  P (dev w) ->
  during P (for_range (R:=R) n (
    running ← is_kaonic_running;
    if running : bool then sleep 1;; mret Continue
    else mret Break)) w.
Proof.
  intros Hlog. revert w. induction n as [|n IH]; intros w HP; [by apply during_Fin|].
  simpl. apply during_Act; split; [done|]. simpl.
  destruct (systemctl_is_active (dev w) =? 0)%Z; simpl.
  - apply during_Act; split; [by apply Hlog|]. simpl.
    apply IH. simpl. by do 2 apply Hlog.
  - apply during_Fin. simpl. by apply Hlog.
Qed.

Lemma during_watch_service {R} (P : device -> Prop) w :
  (forall e d, P d -> P (logged e d)) ->
  P (dev w) ->
  during P (watch_service (R:=R)) w.
Proof. apply during_watch. Qed.

Opaque validate_signature backup_current restore_backup watch_service
  sha256sum_of strip decode watched.

Local Arguments during : simpl never.
Local Arguments mid_update : simpl never.

Lemma during_upload_ota_verified request d c G h :
  METADATA_PATH ∈ dirs d ->
  files d !! APP_PATH = Some G ->
  files d !! HASH_PATH = Some h ->
  candidate request d = Some c ->
  integrity c = true ->
  authenticity d c = true ->
  during (mid_update G h c) (upload_ota request) (World d ∅).
Proof.
  intros Hm HG Hh (upload & key & members & Eu & Ect & Ek & Ex & E1 & E2 & E3 & E4)%candidate_Some
    Hi Ha.
  assert (HP : mid_update G h c d).
  { split; [done|]. left. eauto. }
  unfold upload_ota. rewrite Eu. simpl. rewrite Ect. simpl.
  apply during_Act; split; [done|]. simpl. rewrite Ek. simpl.
  apply during_Act; split; [done|]. simpl.
  apply during_Act; split; [done|]. simpl.
  apply during_Act; split; [done|]. simpl.
  rewrite lookup_insert_eq. simpl. rewrite Ex. simpl.
  apply during_finally; [done|].
  apply (during_after_silent (mid_update G h c)
           (try_except
              (for_each members
                 (fun m => perform (fun w => inr (store_file (InTmp m.1) m.2 w))))
              (fun e => match e with
                        | BadZipFile => return_ (jsonify "Invalid ZIP file" 400)
                        | _ => raise e
                        end))).
  { apply silent_try_except; [|by intros []].
    apply silent_for_each. intros m. split; [done|]. by intros []. }
  { done. }
  intros [] w' Hrun _. rewrite run_try_except, run_for_each_store in Hrun.
  simpl in Hrun. injection Hrun as <-. fold (unpack upload members).
  apply during_Act; split; [done|]. simpl. rewrite E1. simpl.
  apply during_Act; split; [done|]. simpl. rewrite E2. simpl.
  apply during_Act; split; [done|]. simpl. rewrite E3. simpl.
  apply during_Act; split; [done|]. simpl. rewrite E4. simpl.
  apply during_Act; split; [done|]. simpl. rewrite E2. simpl.
  apply during_Act; split; [done|]. simpl. rewrite E1. simpl.
  unfold integrity in Hi. rewrite Hi. simpl.
  apply during_after_silent; [apply silent_validate_signature|done|].
  intros verified w' Hrun _. rewrite run_validate_signature in Hrun.
  unfold signature_checks in Hrun. simpl in Hrun. rewrite Ek, E1, E4 in Hrun.
  unfold authenticity in Ha. rewrite Ek in Ha. rewrite Ha in Hrun.
  injection Hrun as <- <-. simpl.
  apply during_Act; split; [done|]. simpl.
  set (d1 := logged SystemctlStop d).
  set (d2 := backed_up d1).
  set (d3 := write APP_PATH (binary c) d2).
  set (d4 := set_mode APP_PATH (binary c) (executable_mode (binary c)) d3).
  set (d5 := logged SystemctlStart d4).
  assert (H1 : mid_update G h c d1) by done.
  assert (H1' : mid_update G h c
                  (if present (files d1 !! BACKUP_PATH) then erase BACKUP_PATH d1 else d1)).
  { destruct (present (files d1 !! BACKUP_PATH)); [|done].
    apply (mid_update_before G h c _ G); cbn [erase logged with_files files dirs];
      rewrite ?lookup_delete_ne by done; done. }
  assert (H2 : mid_update G h c d2).
  { apply (mid_update_before G h c _ G); unfold d2;
      rewrite ?backed_up_dirs, ?backed_up_files, ?decide_False by done; done. }
  assert (Hafter : forall d', dirs d' = dirs d ->
            files d' !! BACKUP_PATH = Some G ->
            (exists mode, files d' !! APP_PATH = Some (File (content (binary c)) mode)) ->
            files d' !! HASH_PATH = Some h \/ files d' !! HASH_PATH = Some (digest_file c) ->
            mid_update G h c d').
  { intros d' Hd Hb (mode & Happ) Hhash.
    apply (mid_update_after G h c d' (File (content (binary c)) mode)); try done.
    by rewrite Hd. }
  assert (F3 : dirs d3 = dirs d /\ files d3 !! BACKUP_PATH = Some G /\
               files d3 !! APP_PATH = Some (binary c) /\ files d3 !! HASH_PATH = Some h).
  { unfold d3, d2. cbn [write logged with_files files dirs].
    rewrite backed_up_dirs, lookup_insert_eq, !lookup_insert_ne by done.
    rewrite !backed_up_files, decide_True, decide_False by done. done. }
  destruct F3 as (F3d & F3b & F3a & F3h).
  assert (H3 : mid_update G h c d3).
  { apply Hafter; try done; [|by left]. exists (st_mode (binary c)).
    rewrite F3a. by destruct (binary c). }
  assert (F4 : dirs d4 = dirs d /\ files d4 !! BACKUP_PATH = Some G /\
               files d4 !! APP_PATH = Some (executable (binary c)) /\
               files d4 !! HASH_PATH = Some h).
  { unfold d4. cbn [set_mode logged with_files files dirs].
    by rewrite lookup_insert_eq, !lookup_insert_ne by done. }
  destruct F4 as (F4d & F4b & F4a & F4h).
  assert (H4 : mid_update G h c d4).
  { apply Hafter; try done; [|by left]. by exists (executable_mode (binary c)). }
  assert (Hlog : forall e d', mid_update G h c d' -> mid_update G h c (logged e d')) by done.
  assert (H5 : mid_update G h c d5) by by apply Hlog.
  apply during_bind; [by apply during_backup_current|].
  intros [] w' Hrun. rewrite run_backup_current in Hrun. injection Hrun as <-.
  apply during_Act; split; [done|]. simpl. rewrite E1. simpl.
  apply during_Act; split; [done|]. simpl. rewrite lookup_insert_eq. simpl.
  apply during_Act; split; [done|]. simpl. rewrite lookup_insert_eq. simpl.
  apply during_Act; split; [done|]. simpl.
  match goal with |- during _ _ ?w => change w with (World d5 (unpack upload members)) end.
  apply during_bind; [by apply during_watch_service|].
  intros [] w' Hrun. rewrite run_watch_service in Hrun. injection Hrun as <-.
  cbn [dev tmp].
  set (d6 := watched 10 d5).
  destruct (watched_frame 10 d5) as [F6f F6d]. fold d6 in F6f, F6d.
  assert (H6 : mid_update G h c d6) by by apply (mid_update_same G h c d5).
  apply during_Act; split; [done|]. simpl.
  set (d7 := logged (SystemctlIsActive (systemctl_is_active d6)) d6).
  assert (H7 : mid_update G h c d7) by by apply Hlog.
  assert (F7 : dirs d7 = dirs d /\ files d7 !! BACKUP_PATH = Some G /\
               files d7 !! APP_PATH = Some (executable (binary c)) /\
               files d7 !! HASH_PATH = Some h).
  { unfold d7. cbn [logged files dirs]. by rewrite F6f, F6d. }
  destruct F7 as (F7d & F7b & F7a & F7h).
  destruct (systemctl_is_active d6 =? 0)%Z.
  - (* found healthy: the record is written *)
    apply during_Act; split; [done|]. simpl. rewrite E2. simpl.
    assert (H8 : mid_update G h c (write HASH_PATH (digest_file c) d7)).
    { apply Hafter; cbn [write logged with_files files dirs];
        rewrite ?lookup_insert_eq, ?lookup_insert_ne by done; try done.
      - by exists (executable_mode (binary c)).
      - by right. }
    apply during_Act; split; [done|]. simpl. rewrite E3. simpl.
    apply during_Fin. cbn [dev].
    apply Hafter; cbn [write logged with_files files dirs];
      rewrite ?lookup_insert_ne, ?lookup_insert_eq by done; try done.
    + by exists (executable_mode (binary c)).
    + by right.
  - (* not healthy: the backup is restored *)
    assert (H8 : mid_update G h c (restored d7)).
    { apply (mid_update_before G h c _ G).
      - by rewrite restored_dirs, F7d.
      - by rewrite restored_files, decide_True, F7b by done.
      - done.
      - by rewrite restored_files, decide_False by done. }
    apply during_bind; [by apply during_restore_backup|].
    intros [] w' Hrun. rewrite run_restore_backup in Hrun. injection Hrun as <-.
    cbn [dev tmp].
    apply during_Act; split; [done|]. simpl.
    apply during_Fin. cbn [dev record_call]. by apply Hlog.
Qed.


Transparent validate_signature backup_current restore_backup watch_service
  sha256sum_of strip decode.

(** A block that has journalled nothing by its end has changed nothing at
    any moment. *)
Lemma nothing_journalled {R A} (m : prog R A) w :
  journalled m ->
  journal (dev (run m w).2) = journal (dev w) ->
  forall n, dev (steps n m w).2 = dev w.
Proof.
  intros Hm Hj n.
  destruct (moment m w n Hm) as (js & js' & Hn & Hj' & _).
  destruct Hn as (Hjn & Hrest). rewrite Hj, Hjn, <- app_assoc in Hj'.
  apply (f_equal length) in Hj'. rewrite !length_app in Hj'.
  assert (js = []) as -> by (destruct js; [done|simpl in Hj'; lia]).
  by apply later_nothing.
Qed.


End Interrupted.

(** ** What the transaction leaves alone *)

Lemma within_spares paths q e :
  within paths e -> q ∉ paths -> spares q e /\ forall p, e <> Mkdir p.
Proof.
  intros He Hq. unfold spares.
  destruct e; cbn [within] in He; split_and!; try done;
    intros; intros [= <-]; done.
Qed.

Lemma within_active_turns paths k : Forall (within paths) (active_turns k).
Proof. induction k; repeat constructor; done. Qed.

Lemma backed_up_within d :
  exists js, journal (backed_up d) = journal d ++ js /\
             Forall (within [APP_PATH; BACKUP_PATH; HASH_PATH; VERSION_PATH]) js.
Proof.
  assert (Hb : BACKUP_PATH ∈ [APP_PATH; BACKUP_PATH; HASH_PATH; VERSION_PATH])
    by repeat constructor.
  destruct d as [fs ds js]. unfold backed_up. simpl.
  destruct (fs !! BACKUP_PATH) as [b|]; simpl.
  - rewrite lookup_delete_ne by done.
    destruct (fs !! APP_PATH) as [a|]; simpl.
    + exists [Unlinked BACKUP_PATH; Wrote BACKUP_PATH]. rewrite <- app_assoc.
      split; [done|]. by repeat constructor.
    + exists [Unlinked BACKUP_PATH]. split; [done|]. by repeat constructor.
  - destruct (fs !! APP_PATH) as [a|]; simpl.
    + exists [Wrote BACKUP_PATH]. split; [done|]. by repeat constructor.
    + exists []. rewrite app_nil_r. split; [done|]. constructor.
Qed.

Section LeftAlone.
Context {HL : Hashlib} {CR : Cryptography} {ZF : Zipfile} {SD : Systemd}.

Lemma upload_ota_within request d :
  exists js,
    journal (run_on d (upload_ota request)).2 = journal d ++ js /\
    Forall (within [APP_PATH; BACKUP_PATH; HASH_PATH; VERSION_PATH]) js.
Proof.
  assert (Ha : APP_PATH ∈ [APP_PATH; BACKUP_PATH; HASH_PATH; VERSION_PATH])
    by repeat constructor.
  assert (Hh : HASH_PATH ∈ [APP_PATH; BACKUP_PATH; HASH_PATH; VERSION_PATH])
    by repeat constructor.
  assert (Hv : VERSION_PATH ∈ [APP_PATH; BACKUP_PATH; HASH_PATH; VERSION_PATH])
    by repeat constructor.
  assert (Hnone : exists js,
            journal d = journal d ++ js /\
            Forall (within [APP_PATH; BACKUP_PATH; HASH_PATH; VERSION_PATH]) js).
  { exists []. by rewrite app_nil_r. }
  destruct (candidate request d) as [c|] eqn:Hc.
  2:{ by rewrite (run_upload_ota_rejected _ _ Hc). }
  rewrite (run_upload_ota _ _ _ Hc). unfold transaction.
  destruct (integrity c); cbn [negb]; [|done].
  destruct (authenticity d c); cbn [negb]; [|done].
  assert (Hi : exists ji,
            journal (installed c d) = journal d ++ ji /\
            Forall (within [APP_PATH; BACKUP_PATH; HASH_PATH; VERSION_PATH]) ji).
  { unfold installed, set_mode, write, logged, with_files. simpl.
    destruct (backed_up_within (Device (files d) (dirs d) (journal d ++ [SystemctlStop])))
      as (js & -> & Hjs). simpl.
    exists ([SystemctlStop] ++ js
            ++ [Wrote APP_PATH; Chmod APP_PATH (executable_mode (binary c)); SystemctlStart]).
    split; [by rewrite <- !app_assoc|].
    rewrite !Forall_app. split_and!; [by repeat constructor|done|by repeat constructor]. }
  destruct Hi as (ji & Hji & Hwi).
  assert (Hp : exists jp,
            journal (probe (installed c d)).2 = journal (installed c d) ++ jp /\
            Forall (within [APP_PATH; BACKUP_PATH; HASH_PATH; VERSION_PATH]) jp).
  { unfold probe. cbn [snd logged journal].
    destruct (watched_journal 10 (installed c d)) as (k & js & _ & -> & Hend).
    exists (active_turns k ++ js
            ++ [SystemctlIsActive (systemctl_is_active (watched 10 (installed c d)))]).
    split; [by rewrite <- !app_assoc|].
    rewrite !Forall_app. split_and!; [apply within_active_turns| |by repeat constructor].
    destruct Hend as [[_ ->]|[_ (rc & _ & -> & _)]]; by repeat constructor. }
  destruct Hp as (jp & Hjp & Hwp).
  destruct (probe (installed c d)) as [[] dp]; cbn [snd] in *.
  - exists (ji ++ jp ++ [Wrote HASH_PATH; Wrote VERSION_PATH]).
    unfold committed, write, logged, with_files. cbn [journal].
    split; [by rewrite Hjp, Hji, <- !app_assoc|].
    rewrite !Forall_app. split_and!; [done..|by repeat constructor].
  - destruct (restored_journal dp) as [_ Hjr].
    exists (ji ++ jp
            ++ (if present (files dp !! BACKUP_PATH) then [Wrote APP_PATH] else [])
            ++ [SystemctlStart]).
    unfold rolled_back. cbn [logged journal].
    split; [by rewrite Hjr, Hjp, Hji, <- !app_assoc|].
    rewrite !Forall_app. split_and!; [done..| |by repeat constructor].
    destruct (present (files dp !! BACKUP_PATH)); by repeat constructor.
Qed.

(** X13. The transaction touches four files and nothing else. Whatever
    the request and however it ends, at every moment of the transaction
    (after any number of its calls) every file of the device other than the
    Active Binary, the Backup Binary, the Recorded Digest and the Recorded
    Version is as it was, and so are the directories. In particular the
    trusted key is never written, removed or given other mode bits. *)
Theorem transaction_touches_four_files_only request d n :
  (forall q, q ∉ [APP_PATH; BACKUP_PATH; HASH_PATH; VERSION_PATH] ->
     files (dev (steps n (upload_ota request) (World d ∅)).2) !! q = files d !! q) /\
  files (dev (steps n (upload_ota request) (World d ∅)).2) !! VERIFY_KEY_PATH
    = files d !! VERIFY_KEY_PATH /\
  dirs (dev (steps n (upload_ota request) (World d ∅)).2) = dirs d.
Proof.
  destruct (upload_ota_within request d) as (J & HJ & HwJ).
  destruct (moment (upload_ota request) (World d ∅) n (journalled_upload_ota request))
    as (js & js' & (Hj & Hf & Hd) & (Hj' & _) ).
  cbn [dev] in *.
  assert (Hsplit : J = js ++ js').
  { unfold run_on in HJ.
    destruct (run (upload_ota request) (World d ∅)) as [o w]. cbn [snd] in *.
    rewrite HJ, Hj, <- app_assoc in Hj'. by apply app_inv_head in Hj'. }
  subst J. apply Forall_app in HwJ as [Hw _].
  assert (Hall : forall q, q ∉ [APP_PATH; BACKUP_PATH; HASH_PATH; VERSION_PATH] ->
            files (dev (steps n (upload_ota request) (World d ∅)).2) !! q = files d !! q).
  { intros q Hq. apply Hf. eapply Forall_impl; [exact Hw|].
    intros e He. by apply (within_spares _ q e He). }
  assert (Hkey : VERIFY_KEY_PATH ∉ [APP_PATH; BACKUP_PATH; HASH_PATH; VERSION_PATH]).
  { rewrite !not_elem_of_cons. split_and!; try done. apply not_elem_of_nil. }
  split_and!.
  - exact Hall.
  - by apply Hall.
  - apply Hd. eapply Forall_impl; [exact Hw|].
    intros e He. by apply (within_spares _ VERIFY_KEY_PATH e He).
Qed.

(** X14. The temporary directory is always removed. However the request
    ends (an answer of any kind, or an exception of the extraction), the
    temporary directory of the request holds nothing afterwards: the upload
    and what was extracted from it are gone. *)
Theorem temporary_directory_is_always_removed request d :
  tmp (run (upload_ota request) (World d ∅)).2 = ∅.
Proof.
  unfold upload_ota.
  destruct (request_files request !! "file") as [upload|]; simpl; [|done].
  destruct (content_type upload =? "application/x-zip-compressed"); simpl; [|done].
  destruct (files d !! VERIFY_KEY_PATH) as [key|]; simpl; [|done].
  rewrite run_finally.
  by match goal with |- context [run ?m ?w] => destruct (run m w) end.
Qed.

End LeftAlone.

(** * The package tool *)

Module CreateOtaFacts.
Import CreateOta.

(** ** Paths *)

Lemma dirname_joinpath (p : Path) (name : string) : dirname (p // name) = p.
Proof. apply removelast_last. Qed.

Lemma basename_joinpath (p : Path) (name : string) : basename (p // name) = name.
Proof. apply last_last. Qed.

Lemma with_suffix_joinpath (p : Path) (name suffix : string) :
  with_suffix (p // name) suffix = p // (name ++ suffix)%string.
Proof.
  unfold with_suffix. rewrite dirname_joinpath, basename_joinpath.
  unfold joinpath. by destruct p.
Qed.

Lemma joinpath_inj (p : Path) (a b : string) : p // a = p // b -> a = b.
Proof. unfold joinpath. by intros [= ->]%app_inv_head. Qed.

Lemma prefix_joinpath (p : Path) (name : string) : p `prefix_of` p // name.
Proof. by exists [name]. Qed.

Lemma not_prefix_sibling (p : Path) (a b : string) :
  a <> b -> ¬ (p // a) `prefix_of` (p // b).
Proof.
  intros Hne [rest Heq]. unfold joinpath in Heq.
  rewrite <- app_assoc in Heq. apply app_inv_head in Heq.
  injection Heq as Heq _. by apply Hne.
Qed.

Lemma not_prefix_parent (p : Path) (name : string) : ¬ (p // name) `prefix_of` p.
Proof.
  intros [rest Heq]. apply (f_equal length) in Heq.
  unfold joinpath in Heq. rewrite !length_app in Heq. simpl in Heq. lia.
Qed.

Lemma relative_to_Some (root q rel : Path) :
  relative_to root q = Some rel <-> q = root ++ rel.
Proof.
  revert q. induction root as [|r root IH]; intros q; simpl.
  - split; [by intros [= ->]|by intros ->].
  - destruct q as [|x q]; [done|].
    case_decide as Hrx; [subst x|].
    + rewrite IH. split; [by intros ->|by intros [= ->]].
    + split; [done|]. intros [= -> _]. done.
Qed.

(** ** The files below a directory *)

Lemma NoDup_omap_inj {A B} (g : A -> option B) (l : list A) :
  (forall x y z, g x = Some z -> g y = Some z -> x = y) ->
  NoDup l -> NoDup (omap g l).
Proof.
  intros Hinj. induction 1 as [|x l Hx Hl IH]; simpl; [constructor|].
  destruct (g x) as [z|] eqn:Ez; [|done].
  constructor; [|done]. intros (y & Hy & Hgy)%list_elem_of_omap.
  by rewrite (Hinj x y z Ez Hgy) in Hx.
Qed.

Lemma tree_lookup (root : Path) (fs : gmap Path file) (rel : Path) :
  rel <> [] -> tree root fs !! rel = fs !! (root ++ rel).
Proof.
  intros Hrel. unfold tree.
  set (g := fun kv : Path * file =>
              match relative_to root kv.1 with
              | Some (part :: rel) => Some (part :: rel, kv.2)
              | _ => None
              end).
  assert (Hg : forall q f rel' f', g (q, f) = Some (rel', f') <->
                 q = root ++ rel' /\ rel' <> [] /\ f' = f).
  { intros q f rel' f'. unfold g. cbn [fst snd].
    destruct (relative_to root q) as [[|part r]|] eqn:E.
    - split; [done|]. intros (-> & Hne & _).
      apply relative_to_Some in E. apply app_inv_head in E. by subst.
    - apply relative_to_Some in E. subst q. split.
      + by intros [= <- <-].
      + intros (->%app_inv_head & _ & ->). done.
    - split; [done|]. intros (-> & _ & _).
      by rewrite (proj2 (relative_to_Some root (root ++ rel') rel') eq_refl) in E. }
  assert (Hnodup : NoDup (omap g (map_to_list fs)).*1).
  { apply NoDup_fmap_fst.
    - intros rel' f1 f2 ([q1 x1] & H1 & Hg1)%list_elem_of_omap
                         ([q2 x2] & H2 & Hg2)%list_elem_of_omap.
      apply Hg in Hg1 as (-> & _ & ->). apply Hg in Hg2 as (-> & _ & ->).
      apply elem_of_map_to_list in H1, H2. congruence.
    - apply NoDup_omap_inj; [|apply NoDup_map_to_list].
      intros [q1 x1] [q2 x2] [rel' f'] H1 H2.
      apply Hg in H1 as (-> & _ & ->). apply Hg in H2 as (-> & _ & ->). done. }
  destruct (fs !! (root ++ rel)) as [f|] eqn:E.
  - apply elem_of_list_to_map; [done|].
    apply list_elem_of_omap. exists (root ++ rel, f).
    split; [by apply elem_of_map_to_list|]. by apply Hg.
  - apply not_elem_of_list_to_map. intros ([rel' f'] & Heq & Hin)%list_elem_of_fmap.
    cbn [fst] in Heq. subst rel'.
    apply list_elem_of_omap in Hin as ([q x] & Hin & Hgq).
    apply Hg in Hgq as (-> & _ & _). apply elem_of_map_to_list in Hin. congruence.
Qed.

Lemma tree_lookup_nil (root : Path) (fs : gmap Path file) : tree root fs !! [] = None.
Proof.
  unfold tree. apply not_elem_of_list_to_map.
  intros ([rel f] & Heq & Hin)%list_elem_of_fmap. cbn [fst] in Heq. subst rel.
  apply list_elem_of_omap in Hin as ([q x] & _ & Hg). cbn [fst snd] in Hg.
  by destruct (relative_to root q) as [[|part r]|].
Qed.

(** ** The calls of the tool, run *)

Section ToolCalls.
Context {HL : Hashlib} {SG : Signing} {AR : Archiver} {CD : Codec}.

Lemma run_exists_ {R} (p : path) w :
  run (R:=R) (exists_ p) w = (Next (present (lookup_file w p)), w).
Proof. done. Qed.

Lemma run_exists_dir {R} (q : Path) w :
  run (R:=R) (exists_dir q) w = (Next (bool_decide (q ∈ dirs (dev w))), w).
Proof. done. Qed.

Lemma run_when_remove {R} (archive : Path) w :
  run (R:=R) (when (present (files (dev w) !! archive)) (os_remove archive)) w
  = (Next tt, World (with_files (delete archive) (dev w)) (tmp w)).
Proof.
  destruct w as [[fs ds js] t]. cbn [dev files].
  destruct (fs !! archive) as [f|] eqn:E; simpl; rewrite ?E; simpl; [done|].
  unfold with_files. simpl. by rewrite delete_id.
Qed.

Lemma run_rmtree {R} (p : Path) w :
  p ∈ dirs (dev w) ->
  run (R:=R) (rmtree p) w
  = (Next tt,
     World (Device (filter (fun kv => ¬ p `prefix_of` kv.1) (files (dev w)))
                   (filter (fun q => ¬ p `prefix_of` q) (dirs (dev w)))
                   (journal (dev w)))
           (tmp w)).
Proof. intros Hp. simpl. by rewrite bool_decide_eq_true_2. Qed.

Lemma lookup_rmtree (p q : Path) (fs : gmap Path file) :
  filter (fun kv : Path * file => ¬ p `prefix_of` kv.1) fs !! q
  = if bool_decide (p `prefix_of` q) then None else fs !! q.
Proof.
  case_bool_decide as Hq.
  - apply map_lookup_filter_None. right. intros f _ Hn. by apply Hn.
  - destruct (fs !! q) as [f|] eqn:E.
    + by apply map_lookup_filter_Some.
    + apply map_lookup_filter_None. by left.
Qed.

(** The release directory cleared: removed with all below it when it is
    there. *)
Lemma run_when_rmtree {R} (p : Path) w :
  p ∈ dirs (dev w) \/ (forall q, p `prefix_of` q -> files (dev w) !! q = None) ->
  exists w',
    run (R:=R) (when (bool_decide (p ∈ dirs (dev w))) (rmtree p)) w = (Next tt, w') /\
    (forall q, files (dev w') !! q
               = if bool_decide (p `prefix_of` q) then None else files (dev w) !! q) /\
    (p ∉ dirs (dev w')) /\
    (forall q, ¬ p `prefix_of` q -> (q ∈ dirs (dev w') <-> q ∈ dirs (dev w))) /\
    tmp w' = tmp w.
Proof.
  intros Hlayout. case_bool_decide as Hp.
  - eexists. split; [by apply run_rmtree|]. cbn [dev files dirs tmp]. split_and!.
    + intros q. apply lookup_rmtree.
    + rewrite elem_of_filter. by intros [Hn _].
    + intros q Hq. rewrite elem_of_filter. split; [by intros [_ ?]|by split].
    + done.
  - exists w. split; [done|]. destruct Hlayout as [?|Hnone]; [done|]. split_and!; try done.
    intros q. case_bool_decide; [by apply Hnone|done].
Qed.

Lemma run_os_mkdir {R} (p : Path) w :
  p ∉ dirs (dev w) -> files (dev w) !! p = None -> dirname p ∈ dirs (dev w) ->
  run (R:=R) (os_mkdir p) w
  = (Next tt,
     World (Device (files (dev w)) (dirs (dev w) ∪ {[ p ]}) (journal (dev w))) (tmp w)).
Proof.
  intros Hp Hf Hd. simpl.
  by rewrite bool_decide_eq_false_2, Hf, bool_decide_eq_true_2 by done.
Qed.

Lemma run_shutil_copy {R} (src dst : Path) f w :
  files (dev w) !! src = Some f -> dst ∈ dirs (dev w) ->
  run (R:=R) (shutil_copy src dst) w
  = (Next tt, World (with_files <[dst // basename src := f]> (dev w)) (tmp w)).
Proof.
  intros Hf Hd. simpl. rewrite Hf, (bool_decide_eq_true_2 _ Hd).
  by rewrite dirname_joinpath, (bool_decide_eq_true_2 _ Hd).
Qed.

Lemma run_save_to_file {R} (q : Path) (text : bytes) w :
  dirname q ∈ dirs (dev w) -> files (dev w) !! q = None ->
  run (R:=R) (save_to_file q text) w
  = (Next tt, World (with_files <[q := File text created_mode]> (dev w)) (tmp w)).
Proof.
  intros Hd Hf. simpl. unfold write_bytes_to.
  by rewrite (bool_decide_eq_true_2 _ Hd), Hf.
Qed.

Lemma run_get_file_hash {R} (q : Path) f w :
  files (dev w) !! q = Some f ->
  run (R:=R) (get_file_hash q) w = (Next (get_file_hash_of (content f)), w).
Proof. intros Hf. simpl. by rewrite Hf. Qed.

Lemma run_sign_file {R} (key file sig_file : Path) k f private_key sg w :
  files (dev w) !! file = Some f ->
  files (dev w) !! key = Some k ->
  load_pem_private_key (content k) = inr private_key ->
  private_sign private_key (content f) PKCS1v15 SHA256 = inr sg ->
  dirname sig_file ∈ dirs (dev w) -> files (dev w) !! sig_file = None ->
  run (R:=R) (sign_file key file sig_file) w
  = (Next tt, World (with_files <[sig_file := File sg created_mode]> (dev w)) (tmp w)).
Proof.
  intros Hf Hk Hload Hsign Hd Hs. simpl. rewrite Hf. simpl. rewrite Hk. simpl.
  rewrite Hload. simpl. rewrite Hsign. simpl. unfold write_bytes_to.
  by rewrite (bool_decide_eq_true_2 _ Hd), Hs.
Qed.

Lemma run_verify_file {R} (key file_path sig_path : Path) k f s private_key w :
  files (dev w) !! file_path = Some f ->
  files (dev w) !! sig_path = Some s ->
  files (dev w) !! key = Some k ->
  load_pem_private_key (content k) = inr private_key ->
  run (R:=R) (verify_file key file_path sig_path) w
  = (match public_verify (private_public_key private_key) (content s) (content f)
                         PKCS1v15 SHA256 with
     | Some e => Raised e
     | None => Next tt
     end, w).
Proof.
  intros Hf Hs Hk Hload. simpl. rewrite Hf. simpl. rewrite Hs. simpl.
  rewrite Hk. simpl. rewrite Hload. simpl.
  by destruct (public_verify _ _ _ _ _).
Qed.

Lemma run_make_archive {R} (base_name root_dir : Path) w :
  root_dir ∈ dirs (dev w) ->
  files (dev w) !! with_suffix base_name ".zip" = None ->
  run (R:=R) (make_archive base_name root_dir) w
  = (Next tt,
     World (with_files
              <[with_suffix base_name ".zip"
                  := File (zip_archive (tree root_dir (files (dev w)))) created_mode]>
              (dev w))
           (tmp w)).
Proof. intros Hd Hf. simpl. by rewrite (bool_decide_eq_true_2 _ Hd), Hf. Qed.

End ToolCalls.

(** ** A run of the tool *)

Lemma lookup_insert_below (root : Path) (name : string) (f : file)
    (fs : gmap Path file) (r : Path) :
  <[root // name := f]> fs !! (root ++ r)
  = if decide (r = [name]) then Some f else fs !! (root ++ r).
Proof.
  unfold joinpath. rewrite lookup_insert.
  repeat case_decide; simplify_list_eq; done.
Qed.

Lemma lookup_insert_name (name : string) (f : file) (tr : gmap Path file) (r : Path) :
  <[ [name] := f ]> tr !! r = if decide (r = [name]) then Some f else tr !! r.
Proof. rewrite lookup_insert. repeat case_decide; simplify_list_eq; done. Qed.

Lemma lookup_insert_beside (root : Path) (name : string) (f : file)
    (fs : gmap Path file) (q : Path) :
  ¬ root `prefix_of` q -> <[root // name := f]> fs !! q = fs !! q.
Proof.
  intros Hq. apply lookup_insert_ne. intros <-. apply Hq, prefix_joinpath.
Qed.

Section ToolRuns.
Context {HL : Hashlib} {SG : Signing} {AR : Archiver} {CD : Codec}.

Lemma release_archive_path_is (args : Namespace) :
  with_suffix (release_path_of args) ".zip" = release_archive_path_of args.
Proof. unfold release_path_of. by rewrite with_suffix_joinpath. Qed.

Lemma run_main args git host v b signature :
  decode_utf7 git = inr v ->
  Path_ (output_dir args) ∈ dirs host ->
  (release_path_of args ∈ dirs host \/
   forall q, release_path_of args `prefix_of` q -> files host !! q = None) ->
  files host !! (Path_ (build_dir args) // "kaonic-commd") = Some b ->
  ¬ release_path_of args `prefix_of` (Path_ (build_dir args) // "kaonic-commd") ->
  Path_ (build_dir args) // "kaonic-commd" <> release_archive_path_of args ->
  signing args host b signature ->
  exists host',
    run_on host (main args git) = (Returned 0%Z, host') /\
    files host' !! release_archive_path_of args
      = Some (File (zip_archive (release_tree b (version_label v) signature))
                   created_mode) /\
    (forall q, ¬ release_path_of args `prefix_of` q -> q <> release_archive_path_of args ->
               files host' !! q = files host !! q) /\
    (forall r, r <> [] ->
               files host' !! (release_path_of args ++ r)
               = if keep args then release_tree b (version_label v) signature !! r
                 else None) /\
    (release_path_of args ∈ dirs host' <-> keep args = true) /\
    (forall q, ¬ release_path_of args `prefix_of` q ->
               (q ∈ dirs host' <-> q ∈ dirs host)).
Proof.
  intros Hdec Hout Hlayout Hb Hsrc Hsrc' Hsign.
  unfold run_on, main. rewrite Hdec.
  fold (release_path_of args). rewrite release_archive_path_is.
  set (rel := release_path_of args) in *.
  set (arch := release_archive_path_of args) in *.
  set (src := Path_ (build_dir args) // "kaonic-commd") in *.
  assert (Hra : ¬ rel `prefix_of` arch) by by apply not_prefix_sibling.
  rewrite run_bind. simpl (run (lift _) _). cbn [and_then].
  change (if replace_newlines v =? "" then "v0.0.0" else replace_newlines v)
    with (version_label v).
  set (label := version_label v).
  (* the old archive and the old release directory go *)
  rewrite run_bind, run_exists_. cbn [and_then lookup_file].
  rewrite run_bind, run_when_remove. cbn [and_then dev tmp].
  set (w1 := World (with_files (delete arch) host) ∅).
  rewrite run_bind, run_exists_dir. cbn [and_then].
  destruct (run_when_rmtree (R:=Z) rel w1) as (w2 & Hrun2 & Hf2 & Hd2 & Hd2' & Ht2).
  { destruct Hlayout as [?|Hnone]; [by left|right].
    intros q Hq. cbn [w1 dev with_files files].
    rewrite lookup_delete_ne; [by apply Hnone|]. by intros <-. }
  rewrite run_bind, Hrun2. cbn [and_then]. clear Hrun2.
  destruct w2 as [d2 t2]. cbn [dev tmp] in *.
  assert (F2 : forall q, files d2 !! q =
            if bool_decide (rel `prefix_of` q) then None
            else if decide (q = arch) then None else files host !! q).
  { intros q. rewrite Hf2. case_bool_decide; [done|]. unfold with_files. cbn [files].
    case_decide as Hq; [subst q; apply lookup_delete_eq|by apply lookup_delete_ne]. }
  assert (F2' : forall r, files d2 !! (rel ++ r) = None).
  { intros r. rewrite F2, bool_decide_eq_true_2; [done|]. by exists r. }
  clear Hf2.
  (* the release directory is made and filled *)
  rewrite run_bind, run_os_mkdir; cbn [and_then dev tmp]; [|done| |].
  2:{ rewrite <- (app_nil_r rel). apply F2'. }
  2:{ unfold rel, release_path_of. rewrite dirname_joinpath.
      apply Hd2'; [apply not_prefix_parent|done]. }
  assert (Hrel : rel ∈ dirs d2 ∪ {[rel]}) by by apply elem_of_union_r, elem_of_singleton.
  rewrite run_bind, (run_shutil_copy src rel b); cbn [and_then dev tmp with_files files dirs];
    [|by rewrite F2, bool_decide_eq_false_2, decide_False|done].
  change (basename src) with (basename (Path_ (build_dir args) // "kaonic-commd")).
  rewrite basename_joinpath.
  rewrite run_bind, run_save_to_file;
    cbn [and_then dev tmp with_files files dirs]; [|by rewrite dirname_joinpath|].
  2:{ rewrite lookup_insert_ne by by intros ?%joinpath_inj. apply F2'. }
  rewrite run_bind, (run_get_file_hash _ b);
    cbn [and_then dev tmp with_files files dirs].
  2:{ rewrite lookup_insert_ne by by intros ?%joinpath_inj. apply lookup_insert_eq. }
  rewrite run_bind, run_save_to_file;
    cbn [and_then dev tmp with_files files dirs]; [|by rewrite dirname_joinpath|].
  2:{ rewrite !lookup_insert_ne by by intros ?%joinpath_inj. apply F2'. }
  match goal with |- context [run _ (World ?d _)] => set (d6 := d) end.
  assert (D6 : dirs d6 = dirs d2 ∪ {[rel]}) by done.
  assert (F6 : forall r, files d6 !! (rel ++ r) = release_tree b label None !! r).
  { intros r. unfold d6, release_tree, with_files. cbn [files].
    rewrite !lookup_insert_below, !lookup_insert_name, F2', lookup_empty.
    repeat case_decide; by subst. }
  assert (F6' : forall q, ¬ rel `prefix_of` q -> files d6 !! q = files d2 !! q).
  { intros q Hq. unfold d6, with_files. cbn [files].
    by rewrite !lookup_insert_beside. }
  clearbody d6.
  (* the signature *)
  assert (Hsigned : exists d7,
            run (R:=Z) (when (negb (sign_key args =? ""))
                   (sign_file (Path_ (sign_key args)) (rel // "kaonic-commd")
                              (rel // "kaonic-commd.sig");;
                    verify_file (Path_ (sign_key args)) (rel // "kaonic-commd")
                                (rel // "kaonic-commd.sig")))
                (World d6 t2) = (Next tt, World d7 t2) /\
            dirs d7 = dirs d6 /\
            (forall r, files d7 !! (rel ++ r) = release_tree b label signature !! r) /\
            (forall q, ¬ rel `prefix_of` q -> files d7 !! q = files d6 !! q)).
  { destruct signature as [sg|]; cbn [signing] in Hsign.
    - destruct Hsign as (Hkey & key & private_key & Hk & Hkrel & Hkarch & Hload & Hsg & Hv).
      apply String.eqb_neq in Hkey. rewrite Hkey. cbn [negb when].
      assert (Hbin : files d6 !! (rel // "kaonic-commd") = Some b).
      { unfold joinpath. rewrite F6. apply lookup_insert_eq. }
      assert (Hk6 : files d6 !! Path_ (sign_key args) = Some key).
      { by rewrite F6', F2, bool_decide_eq_false_2, decide_False. }
      exists (with_files <[rel // "kaonic-commd.sig" := File sg created_mode]> d6).
      split_and!.
      + rewrite run_bind,
          (run_sign_file _ _ _ key b private_key sg); cbn [and_then dev tmp]; try done.
        * rewrite (run_verify_file _ _ _ key b (File sg created_mode) private_key).
          -- cbn [content]. by rewrite Hv.
          -- cbn [dev with_files files].
             by rewrite lookup_insert_ne by by intros ?%joinpath_inj.
          -- cbn [dev with_files files]. apply lookup_insert_eq.
          -- cbn [dev with_files files]. by rewrite lookup_insert_beside.
          -- done.
        * rewrite dirname_joinpath, D6. by apply elem_of_union_r, elem_of_singleton.
        * unfold joinpath. rewrite F6. unfold release_tree.
          by rewrite !lookup_insert_ne, lookup_empty.
      + done.
      + intros r. cbn [with_files files].
        rewrite lookup_insert_below, F6. unfold release_tree.
        rewrite <- insert_empty, !lookup_insert_name, lookup_empty.
        repeat case_decide; by subst.
      + intros q Hq. cbn [with_files files]. by rewrite lookup_insert_beside.
    - rewrite Hsign. cbn [negb when String.eqb]. exists d6. by split_and!. }
  destruct Hsigned as (d7 & Hrun7 & D7 & F7 & F7').
  rewrite run_bind, Hrun7. cbn [and_then]. clear Hrun7.
  (* the archive *)
  assert (Htree : tree rel (files d7) = release_tree b label signature).
  { apply map_eq. intros [|part r].
    - rewrite tree_lookup_nil. unfold release_tree.
      rewrite !lookup_insert_name. repeat case_decide; try done.
      destruct signature; [by rewrite lookup_singleton_ne|done].
    - by rewrite tree_lookup, F7. }
  assert (Harch7 : files d7 !! arch = None).
  { by rewrite F7', F6', F2, bool_decide_eq_false_2, decide_True. }
  assert (Hrel7 : rel ∈ dirs d7) by by rewrite D7, D6.
  assert (Hzip : with_suffix rel ".zip" = arch) by apply release_archive_path_is.
  rewrite run_bind, run_make_archive; cbn [and_then dev tmp]; [|done|by rewrite Hzip].
  rewrite Hzip, Htree.
  set (z := File (zip_archive (release_tree b label signature)) created_mode).
  assert (Hdirs : forall q, ¬ rel `prefix_of` q -> q ∈ dirs d7 <-> q ∈ dirs host).
  { intros q Hq. rewrite D7, D6, elem_of_union, elem_of_singleton, Hd2' by done.
    cbn [w1 dev with_files dirs]. split; [|by left].
    intros [?| ->]; [done|]. by destruct Hq. }
  destruct (keep args).
  - (* the release directory is kept *)
    cbn [negb when]. rewrite run_bind. cbn [run mret prog_ret and_then return_].
    eexists. split; [done|]. cbn [dev with_files files dirs]. split_and!.
    + apply lookup_insert_eq.
    + intros q Hq Hqa. rewrite lookup_insert_ne by done.
      by rewrite F7', F6', F2, bool_decide_eq_false_2, decide_False.
    + intros r Hr. rewrite lookup_insert_ne; [apply F7|].
      intros Heq. apply Hra. exists r. done.
    + done.
    + done.
  - (* the release directory is removed *)
    cbn [negb when]. rewrite run_bind, run_rmtree by done.
    cbn [and_then run return_ dev with_files files dirs].
    eexists. split; [done|]. cbn [files dirs]. split_and!.
    + rewrite lookup_rmtree, bool_decide_eq_false_2 by done. apply lookup_insert_eq.
    + intros q Hq Hqa. rewrite lookup_rmtree, bool_decide_eq_false_2 by done.
      rewrite lookup_insert_ne by done.
      by rewrite F7', F6', F2, bool_decide_eq_false_2, decide_False.
    + intros r Hr. rewrite lookup_rmtree, bool_decide_eq_true_2; [done|]. by exists r.
    + rewrite elem_of_filter. split; [|done]. by intros [Hn _].
    + intros q Hq. rewrite elem_of_filter. rewrite <- (Hdirs q Hq). by split; [intros [_ ?]|].
Qed.


End ToolRuns.

(** ** From the tool to the agent *)

Lemma decode_encode_plain (s : string) : plain s = true -> decode (encode s) = s.
Proof.
  unfold plain, encode, decode, string_of_list_byte.
  induction s as [|c s IH]; [done|]. cbn [list_ascii_of_string forallb flat_map].
  intros [[_ Hc]%andb_prop Hs]%andb_prop. apply N.ltb_lt in Hc.
  unfold encode_char. cbv zeta.
  replace (N_of_ascii c <? 128)%N with true by (symmetry; apply N.ltb_lt; lia).
  cbn [app map string_of_list_ascii].
  f_equal; [apply ascii_of_byte_of_ascii|by apply IH].
Qed.

Lemma isspace_plain (c : ascii) :
  (32 <? N_of_ascii c)%N && (N_of_ascii c <? 127)%N = true -> isspace c = false.
Proof.
  intros [H1 H2]%andb_prop. apply N.ltb_lt in H1, H2. unfold isspace. cbv zeta.
  repeat match goal with
         | |- context [(?a <=? ?b)%N] => destruct (N.leb_spec a b)
         | |- context [(?a =? ?b)%N] => destruct (N.eqb_spec a b)
         end; try reflexivity; lia.
Qed.

Lemma strip_plain (s : string) : plain s = true -> strip s = s.
Proof.
  unfold strip, plain. intros Hs.
  assert (Hl : lstrip s = s).
  { destruct s as [|c s]; [done|]. cbn [list_ascii_of_string forallb] in Hs.
    apply andb_prop in Hs as [Hc _]. cbn [lstrip]. by rewrite (isspace_plain c Hc). }
  rewrite Hl. clear Hl. induction s as [|c s IH]; [done|].
  cbn [list_ascii_of_string forallb] in Hs. apply andb_prop in Hs as [Hc Hs].
  cbn [rstrip]. rewrite (IH Hs). rewrite (isspace_plain c Hc). by destruct s.
Qed.

Lemma release_tree_lookups {HL : Hashlib} (b : file) (label : string)
    (signature : option bytes) :
  release_tree b label signature !! ["kaonic-commd"] = Some b /\
  release_tree b label signature !! ["kaonic-commd.sha256"]
    = Some (File (encode (get_file_hash_of (content b))) created_mode) /\
  release_tree b label signature !! ["kaonic-commd.version"]
    = Some (File (encode label) created_mode) /\
  release_tree b label signature !! ["kaonic-commd.sig"]
    = (fun sg => File sg created_mode) <$> signature.
Proof.
  unfold release_tree. rewrite !lookup_insert_name.
  split_and!; repeat case_decide; try done.
  destruct signature; [apply lookup_singleton_eq|done].
Qed.

Section Delivered.
Context {HL : Hashlib} {CR : Cryptography} {ZF : Zipfile} {SD : Systemd}
        {SG : Signing} {AR : Archiver} {CD : Codec}.

(** What the agent finds in its temporary directory of a delivered
    archive. *)
Lemma delivered_members upload b label signature members :
  delivers upload (release_tree b label signature) members ->
  extractall (stream upload) = inr members /\
  (exists f, unpack upload members !! "kaonic-commd" = Some f /\
             content f = content b) /\
  (exists f, unpack upload members !! "kaonic-commd.sha256" = Some f /\
             content f = encode (get_file_hash_of (content b))) /\
  (exists f, unpack upload members !! "kaonic-commd.version" = Some f /\
             content f = encode label) /\
  match signature with
  | Some sg => exists f, unpack upload members !! "kaonic-commd.sig" = Some f /\
                         content f = sg
  | None => unpack upload members !! "kaonic-commd.sig" = None
  end.
Proof.
  intros [Hx Hnames]. split; [done|].
  destruct (release_tree_lookups b label signature) as (T1 & T2 & T3 & T4).
  assert (Hfind : forall name f,
            name ∈ required_files ->
            release_tree b label signature !! [name] = Some f ->
            exists f', unpack upload members !! name = Some f' /\ content f' = content f).
  { intros name f Hin Hf. specialize (Hnames name Hin). rewrite Hf in Hnames.
    destruct (unpack upload members !! name) as [f'|]; [|done].
    injection Hnames as Hc. eauto. }
  assert (In1 : "kaonic-commd" ∈ required_files) by (unfold required_files; repeat constructor).
  assert (In2 : "kaonic-commd.sha256" ∈ required_files)
    by (unfold required_files; repeat constructor).
  assert (In3 : "kaonic-commd.version" ∈ required_files)
    by (unfold required_files; repeat constructor).
  assert (In4 : "kaonic-commd.sig" ∈ required_files)
    by (unfold required_files; repeat constructor).
  split_and!.
  - apply (Hfind _ _ In1 T1).
  - apply (Hfind _ _ In2 T2).
  - apply (Hfind _ _ In3 T3).
  - destruct signature as [sg|]; cbn [fmap option_fmap option_map] in T4.
    + apply (Hfind _ _ In4 T4).
    + specialize (Hnames _ In4). rewrite T4 in Hnames.
      by destruct (unpack upload members !! "kaonic-commd.sig").
Qed.



End Delivered.

(** ** A run that fails *)

Section ToolFailures.
Context {HL : Hashlib} {SG : Signing} {AR : Archiver} {CD : Codec}.

Lemma run_when_rmtree_any {R} (p : Path) w :
  exists w',
    run (R:=R) (when (bool_decide (p ∈ dirs (dev w))) (rmtree p)) w = (Next tt, w') /\
    forall q, ¬ p `prefix_of` q -> files (dev w') !! q = files (dev w) !! q.
Proof.
  case_bool_decide as Hp.
  - eexists. split; [by apply run_rmtree|]. intros q Hq. cbn [dev files].
    by rewrite lookup_rmtree, bool_decide_eq_false_2.
  - by exists w.
Qed.

Lemma run_os_mkdir_any {R} (p : Path) w :
  (exists e, run (R:=R) (os_mkdir p) w = (Raised e, w)) \/
  run (R:=R) (os_mkdir p) w
  = (Next tt,
     World (Device (files (dev w)) (dirs (dev w) ∪ {[ p ]}) (journal (dev w))) (tmp w)).
Proof.
  simpl. destruct (bool_decide (p ∈ dirs (dev w)) || present (files (dev w) !! p));
    [left; eauto|].
  destruct (negb (bool_decide (dirname p ∈ dirs (dev w)))); [left; eauto|by right].
Qed.

Lemma run_shutil_copy_any {R} (src dst : Path) w :
  dst ∈ dirs (dev w) ->
  run (R:=R) (shutil_copy src dst) w = (Raised FileNotFoundError, w) \/
  exists f, run (R:=R) (shutil_copy src dst) w
            = (Next tt, World (with_files <[dst // basename src := f]> (dev w)) (tmp w)).
Proof.
  intros Hd. destruct (files (dev w) !! src) as [f|] eqn:E.
  - right. exists f. by apply run_shutil_copy.
  - left. simpl. by rewrite E.
Qed.

Lemma run_save_to_file_any {R} (q : Path) (text : bytes) w :
  dirname q ∈ dirs (dev w) ->
  exists mode, run (R:=R) (save_to_file q text) w
               = (Next tt, World (with_files <[q := File text mode]> (dev w)) (tmp w)).
Proof.
  intros Hd. eexists. simpl. unfold write_bytes_to.
  by rewrite (bool_decide_eq_true_2 _ Hd).
Qed.

Lemma run_sign_file_any {R} (key file sig_file : Path) w :
  dirname sig_file ∈ dirs (dev w) ->
  (exists e, run (R:=R) (sign_file key file sig_file) w = (Raised e, w)) \/
  exists sg mode, run (R:=R) (sign_file key file sig_file) w
                  = (Next tt, World (with_files <[sig_file := File sg mode]> (dev w)) (tmp w)).
Proof.
  intros Hd. simpl.
  destruct (files (dev w) !! file) as [f|]; simpl; [|left; eauto].
  destruct (files (dev w) !! key) as [k|]; simpl; [|left; eauto].
  destruct (load_pem_private_key (content k)) as [e|private_key]; simpl; [left; eauto|].
  destruct (private_sign private_key (content f) PKCS1v15 SHA256) as [e|sg]; simpl;
    [left; eauto|].
  right. unfold write_bytes_to. rewrite (bool_decide_eq_true_2 _ Hd). simpl. eauto.
Qed.

Lemma run_verify_file_any {R} (key file_path sig_path : Path) w :
  run (R:=R) (verify_file key file_path sig_path) w = (Next tt, w) \/
  exists e, run (R:=R) (verify_file key file_path sig_path) w = (Raised e, w).
Proof.
  simpl.
  destruct (files (dev w) !! file_path) as [f|]; simpl; [|right; eauto].
  destruct (files (dev w) !! sig_path) as [s|]; simpl; [|right; eauto].
  destruct (files (dev w) !! key) as [k|]; simpl; [|right; eauto].
  destruct (load_pem_private_key (content k)) as [e|private_key]; simpl; [right; eauto|].
  destruct (public_verify _ _ _ _ _) as [e|]; simpl; [right; eauto|by left].
Qed.

Lemma run_make_archive_any {R} (base_name root_dir : Path) w :
  root_dir ∈ dirs (dev w) ->
  exists z, run (R:=R) (make_archive base_name root_dir) w
            = (Next tt, World (with_files <[with_suffix base_name ".zip" := z]> (dev w))
                              (tmp w)).
Proof. intros Hd. eexists. simpl. by rewrite (bool_decide_eq_true_2 _ Hd). Qed.

(** X18. The archive is written last, or not at all. When the output of
    git cannot be decoded the tool raises at once and touches nothing, the
    previous archive included. Otherwise, on any host and with any
    arguments, the run ends in one of two ways: with status 0 and an archive
    at the archive path; or with an exception and no archive there, the
    previous one having been removed and none written. A failed run (no
    output directory, no binary in the build directory, a key that does not
    load, sign or verify) never leaves an archive behind. *)
Theorem archive_is_written_last_or_not_at_all args git host :
  (forall e, decode_utf7 git = inl e ->
     run_on host (main args git) = (Raised e, host)) /\
  (forall v, decode_utf7 git = inr v ->
     exists o host',
       run_on host (main args git) = (o, host') /\
       (o = Returned 0%Z /\ is_Some (files host' !! release_archive_path_of args)
        \/
        (exists e, o = Raised e) /\ files host' !! release_archive_path_of args = None)).
Proof.
  split.
  { intros e He. unfold run_on, main. by rewrite He. }
  intros v Hdec. unfold run_on, main. rewrite Hdec.
  fold (release_path_of args). rewrite release_archive_path_is.
  set (rel := release_path_of args) in *.
  set (arch := release_archive_path_of args) in *.
  assert (Hra : ¬ rel `prefix_of` arch) by by apply not_prefix_sibling.
  assert (Hne : forall name, rel // name <> arch).
  { intros name Heq. apply Hra. rewrite <- Heq. apply prefix_joinpath. }
  assert (Hzip : with_suffix rel ".zip" = arch) by apply release_archive_path_is.
  rewrite run_bind. simpl (run (lift _) _). cbn [and_then].
  rewrite run_bind, run_exists_. cbn [and_then lookup_file].
  rewrite run_bind, run_when_remove. cbn [and_then dev tmp].
  rewrite run_bind, run_exists_dir. cbn [and_then].
  match goal with |- context [rmtree rel] =>
    destruct (run_when_rmtree_any (R:=Z) rel (World (with_files (delete arch) host) ∅))
      as ([d2 t2] & Hrun2 & Hf2) end.
  rewrite run_bind, Hrun2. cbn [and_then]. clear Hrun2.
  assert (A2 : files d2 !! arch = None).
  { specialize (Hf2 arch Hra). cbn [dev with_files files] in Hf2.
    by rewrite Hf2, lookup_delete_eq. }
  clear Hf2.
  (* every failure from here on leaves no archive *)
  assert (Hfail : forall (e : exn) d,
            files d !! arch = None ->
            exists o host',
              (Raised (R:=Z) (A:=Empty_set) e, d) = (o, host') /\
              (o = Returned 0%Z /\ is_Some (files host' !! arch)
               \/ (exists e, o = Raised e) /\ files host' !! arch = None)).
  { intros e d HA. eexists _, _. split; [done|]. right. eauto. }
  rewrite run_bind.
  destruct (run_os_mkdir_any (R:=Z) rel (World d2 t2)) as [[e ->]| ->];
    cbn [and_then dev tmp]; [by apply Hfail|].
  set (ds := dirs d2 ∪ {[rel]}).
  assert (Hrel : rel ∈ ds) by by apply elem_of_union_r, elem_of_singleton.
  rewrite run_bind.
  destruct (run_shutil_copy_any (R:=Z)
              (Path_ (build_dir args) // "kaonic-commd") rel
              (World (Device (files d2) ds (journal d2)) t2) Hrel) as [-> |[f ->]];
    unfold with_files; cbn [and_then dev tmp files dirs journal]; [by apply Hfail|].
  rewrite basename_joinpath.
  rewrite run_bind.
  match goal with |- context [run (save_to_file ?q ?text) ?w] =>
    destruct (run_save_to_file_any (R:=Z) q text w) as [mode1 ->];
      [by rewrite dirname_joinpath|] end.
  unfold with_files; cbn [and_then dev tmp files dirs journal].
  rewrite run_bind, (run_get_file_hash _ f); cbn [and_then dev tmp files].
  2:{ rewrite lookup_insert_ne by by intros ?%joinpath_inj. apply lookup_insert_eq. }
  rewrite run_bind.
  match goal with |- context [run (save_to_file ?q ?text) ?w] =>
    destruct (run_save_to_file_any (R:=Z) q text w) as [mode2 ->];
      [by rewrite dirname_joinpath|] end.
  unfold with_files; cbn [and_then dev tmp files dirs journal].
  match goal with |- context [run _ (World (Device ?fs _ _) _)] => set (fs6 := fs) end.
  assert (A6 : fs6 !! arch = None).
  { unfold fs6. by rewrite !lookup_insert_ne by apply Hne. }
  clearbody fs6.
  (* the rest, from any state with the release directory and no archive *)
  assert (Hrest : forall fs,
            fs !! arch = None ->
            exists o host',
              (let (o, w) :=
                 run (make_archive rel rel;;
                      when (negb (keep args)) (rmtree rel);;
                      (return_ 0%Z : prog Z Empty_set))
                     (World (Device fs ds (journal d2)) t2) in (o, dev w))
                = (o, host') /\
              (o = Returned 0%Z /\ is_Some (files host' !! arch)
               \/ (exists e, o = Raised e) /\ files host' !! arch = None)).
  { intros fs HA.
    rewrite run_bind.
    destruct (run_make_archive_any (R:=Z) rel rel (World (Device fs ds (journal d2)) t2) Hrel)
      as [z ->].
    unfold with_files; cbn [and_then dev tmp files dirs journal]. rewrite Hzip.
    destruct (keep args); cbn [negb when].
    - rewrite run_bind. cbn [run mret prog_ret and_then return_ dev].
      eexists _, _. split; [done|]. left. split; [done|]. cbn [files].
      by rewrite lookup_insert_eq.
    - rewrite run_bind, run_rmtree by done.
      cbn [and_then run return_ dev files dirs].
      eexists _, _. split; [done|]. left. split; [done|]. cbn [files].
      by rewrite lookup_rmtree, bool_decide_eq_false_2, lookup_insert_eq. }
  rewrite run_bind.
  destruct (negb (sign_key args =? "")); cbn [when].
  2:{ cbn [run mret prog_ret and_then]. by apply Hrest. }
  rewrite run_bind.
  match goal with |- context [run (sign_file ?k ?file ?sig) ?w] =>
    destruct (run_sign_file_any (R:=Z) k file sig w) as [[e ->]|(sg & mode3 & ->)];
      [by rewrite dirname_joinpath| |] end;
    unfold with_files; cbn [and_then dev tmp files dirs journal]; [by apply Hfail|].
  match goal with |- context [run (verify_file ?k ?file ?sig) ?w] =>
    destruct (run_verify_file_any (R:=Z) k file sig w) as [-> |[e ->]] end;
    cbn [and_then dev tmp].
  - apply (Hrest (<[rel // "kaonic-commd.sig" := File sg mode3]> fs6)).
    by rewrite lookup_insert_ne by apply Hne.
  - apply (Hfail e (Device (<[rel // "kaonic-commd.sig" := File sg mode3]> fs6) ds
                           (journal d2))).
    cbn [files]. by rewrite lookup_insert_ne by apply Hne.
Qed.

End ToolFailures.

End CreateOtaFacts.

(** * Runs

    The further properties at work on the laboratory's devices and on the
    workshop's build host. *)
Module Runs.
Import Lab CreateOta Workshop CreateOtaFacts.

Lemma metadata_of_committed_device : METADATA_PATH ∈ dirs committed_device.
Proof. unfold committed_device. cbn [dirs]. by apply elem_of_singleton_2. Defined.





(** An archive without the version label and without the signature. *)
Lemma incomplete_archive_run :
  (extractall (stream incomplete) = inl BadZipFile ->
     run_on fresh_device (upload_ota (SD:=always_active)
                            {| request_files := {[ "file" := incomplete ]} |})
     = (Returned (jsonify "Invalid ZIP file" 400), fresh_device)) /\
  run_on fresh_device (upload_ota (SD:=always_active)
                         {| request_files := {[ "file" := incomplete ]} |})
  = (Returned (jsonify "Missing kaonic-commd.version in OTA package" 400), fresh_device).
Proof.
  destruct (archive_is_checked_before_the_gate (SD:=always_active)
              {| request_files := {[ "file" := incomplete ]} |} fresh_device incomplete
              key_file) as (Hbad & _ & Hmissing).
  - vm_compute. reflexivity.
  - reflexivity.
  - vm_compute. reflexivity.
  - split; [exact Hbad|].
    eapply (Hmissing _ ["kaonic-commd"; "kaonic-commd.sha256"] "kaonic-commd.version"
                     ["kaonic-commd.sig"]).
    + vm_compute. reflexivity.
    + reflexivity.
    + repeat constructor; vm_compute; eauto.
    + vm_compute. reflexivity.
Defined.


Ltac by_decision :=
  match goal with |- ?P => apply (bool_decide_unpack P); vm_compute; exact I end.

(** The workshop's host satisfies what a run needs. *)
Lemma workshop_output_dir : Path_ (output_dir signed_run) ∈ dirs build_host.
Proof. by_decision. Defined.

Lemma workshop_release_dir :
  release_path_of signed_run ∈ dirs build_host \/
  forall q, release_path_of signed_run `prefix_of` q -> files build_host !! q = None.
Proof. left. by_decision. Defined.

Lemma workshop_binary_outside :
  ¬ release_path_of signed_run `prefix_of` (Path_ (build_dir signed_run) // "kaonic-commd").
Proof. by_decision. Defined.

Lemma workshop_key_outside :
  ¬ release_path_of signed_run `prefix_of` Path_ (sign_key signed_run).
Proof. by_decision. Defined.

Lemma workshop_contract : hashlib_contract (H:=hashlib).
Proof.
  split.
  - intros h. apply app_nil_r.
  - intros h a b. symmetry. apply app_assoc.
Defined.

Lemma workshop_trust : trusts (CR:=cryptography) key_file (RSAKey secret).
Proof.
  intros message signature. unfold verify. cbn. by intros ->.
Defined.


Ltac each_required_file Hin :=
  unfold required_files in Hin;
  repeat (apply elem_of_cons in Hin as [-> | Hin]; [vm_compute; reflexivity|]);
  by apply elem_of_nil in Hin.



End Runs.
